(** * Samsung Frame TV art changer: upload-state cache and synchronisation engine

    A shallow embedding of [art.py].  The script keeps a list of upload
    records ([uploaded_files]), decides per television whether an already
    uploaded picture can be selected again or a new upload is needed, and
    recovers when the television no longer knows a recorded picture.

    The television, the image sources, the resize utility, the file system
    and the random generator are collaborators of the script: they are kept
    abstract, as state transformers over an arbitrary world [W].  A
    collaborator call that the script wraps in [try] is given a result type
    with its failure cases; the other calls return normally, as their
    interfaces say.  Every collaborator call and every log line is appended
    to a trace, so that "how many fetches" and "how many uploads" are
    statements about a run. *)

From Stdlib Require Import Ascii.
From stdpp Require Import base tactics decidable option list strings gmap.

Set Default Proof Using "Type".

(** ** Data *)

(** [BytesIO] contents. *)
Definition bytes := list Byte.byte.

(** The command line ([argparse] namespace). *)
Module Args.
Record t := mk {
  upload_all : bool;
  debug : bool;
  tvip : option string;
  same_image : bool;
  google_art : bool;
  download_high_res : bool;
  bing_wallpapers : bool;
  media_folder : bool;
  debugimage : bool
}.
End Args.

(** One element of [uploaded_files]: a JSON object read with [.get], so a
    key can be missing or null. *)
Module Entry.
Record t := mk {
  file : option string;
  remote_filename : option string;
  tv_ip : option string;
  source : option string
}.

#[global] Instance eq_dec : EqDecision t.
Proof. solve_decision. Defined.

(** The triple that [remove_uploaded_entry] compares. *)
Definition key (entry : t) : option string * option string * option string :=
  (file entry, source entry, tv_ip entry).
End Entry.

(** The three modules of the [sources] package. *)
Inductive SourceModule := bing_wallpapers | google_art | media_folder.

#[global] Instance SourceModule_eq_dec : EqDecision SourceModule.
Proof. solve_decision. Defined.

(** [module.__name__] *)
Definition __name__ (m : SourceModule) : string :=
  match m with
  | bing_wallpapers => "sources.bing_wallpapers"
  | google_art => "sources.google_art"
  | media_folder => "sources.media_folder"
  end.

(** [tv.art().select_image(...)] inside [try]: it returns, raises
    [ResponseError], or raises another exception. *)
Inductive SelectResult := SelectOk | SelectResponseError | SelectException.

#[global] Instance SelectResult_eq_dec : EqDecision SelectResult.
Proof. solve_decision. Defined.

(** [tv.art().upload(...)] inside [try]: it returns a value, possibly
    [None], or raises. *)
Inductive UploadResult := UploadReturned (remote_filename : option string) | UploadRaised.

Inductive Level := INFO | WARNING | ERROR.

Inductive Event :=
| Log (level : Level) (msg : string)
| MakeDirs (path : string)
| LoadJson (path : string)
| JsonDump (path : string) (content : list Entry.t)
| RandomChoice
| GetImageUrl (source_module : SourceModule)
| GetImage (source_module : SourceModule) (image_url : option string)
| ResizeAndCrop (image_data : bytes)
| DebugImage (filename : string) (image_data : bytes)
| ArtSupported (tv_ip : string)
| ArtSelectImage (tv_ip : string) (remote_filename : string)
| ArtUpload (tv_ip : string) (image_data : bytes) (file_type : string).

(** How the run ends: the script falls off its end, or calls [sys.exit]. *)
Inductive Status := Completed | SysExit (code : nat).

(** ** Collaborators *)

Class Collaborators (W : Type) := {
  (** [os.makedirs(path, exist_ok=True)]; [false] is an [OSError]. *)
  makedirs : string → W → bool * W;
  (** [os.path.isfile] and [json.load]; [None] when there is no file. *)
  load_json : string → W → option (list Entry.t) * W;
  (** [random.choice] over a sequence of the given length: an index. *)
  random_choice : nat → W → nat * W;
  (** [source.get_image_url(args)] *)
  get_image_url : SourceModule → W → option string * W;
  (** [source.get_image(args, image_url)]: image data and file type. *)
  get_image : SourceModule → option string → W → (option bytes * option string) * W;
  (** [utils.resize_and_crop_image] *)
  resize_and_crop_image : bytes → W → bytes * W;
  (** [tv.art().supported()] *)
  art_supported : string → W → bool * W;
  (** [tv.art().select_image(remote_filename, show=True)] *)
  art_select_image : string → string → W → SelectResult * W;
  (** [tv.art().upload(data, file_type=..., matte="none")] *)
  art_upload : string → bytes → string → W → UploadResult * W;
  (** [json.dump(uploaded_files, f)] on the file at the given path. *)
  write_json : string → list Entry.t → W → unit * W
}.

(** ** Python helpers *)

(** Truth value of an optional string: [None] and [""] are false. *)
Definition truthy (o : option string) : bool :=
  match o with
  | Some s => bool_decide (s ≠ "")
  | None => false
  end.

(** [s.split(sep)] for a one-character separator. *)
Fixpoint split (sep : ascii) (s : string) : list string :=
  match s with
  | EmptyString => [EmptyString]
  | String c s' =>
      if decide (c = sep) then EmptyString :: split sep s'
      else match split sep s' with
           | x :: xs => String c x :: xs
           | [] => [String c EmptyString]
           end
  end.

(** [os.path.join] of a directory without trailing slash and a file name. *)
Definition path_join (dir name : string) : string := dir +:+ "/" +:+ name.

Definition PREFERRED_DIR : string := "/share/SamsungFrameTVArtChanger".
Definition FALLBACK_DIR : string := "/data".

(** [source_lookup]: a dictionary from module names to modules. *)
Definition source_lookup : gmap string SourceModule :=
  <[__name__ media_folder := media_folder]>
    (<[__name__ google_art := google_art]>
       (<[__name__ bing_wallpapers := bing_wallpapers]> ∅)).

(** ** Reading a trace *)

Definition is_fetch (e : Event) : bool :=
  match e with GetImage _ _ => true | _ => false end.

Definition is_prepare (e : Event) : bool :=
  match e with ResizeAndCrop _ => true | _ => false end.

Definition is_upload (e : Event) : bool :=
  match e with ArtUpload _ _ _ => true | _ => false end.

Definition is_write (e : Event) : bool :=
  match e with JsonDump _ _ => true | _ => false end.

(** Events that move no image and write no file: neither a fetch, nor a
    resize, nor an upload, nor a write of the upload list. *)
Definition idle (e : Event) : Prop :=
  is_fetch e = false ∧ is_prepare e = false ∧ is_upload e = false ∧ is_write e = false.


(** How many events of a kind a trace holds. *)
Definition count (kind : Event → bool) (tr : list Event) : nat :=
  length (filter (λ e, kind e) tr).

(** Modelled from the spec: the store's [find] on a list of records, an
    exact-match lookup on the key that returns the artifact id of the
    newest matching record, or nothing. *)
Definition store_find
    (files : list Entry.t) (image_url source_name scope : option string) : option string :=
  last (filter (λ entry, Entry.key entry = (image_url, source_name, scope)) files)
    ≫= Entry.remote_filename.

(** No two records of the store have the same key. *)
Definition unique_keys (files : list Entry.t) : Prop := NoDup (Entry.key <$> files).

(** Every record of the store has an artifact id that is not empty. *)
Definition usable_ids (files : list Entry.t) : Prop :=
  Forall (λ entry, truthy (Entry.remote_filename entry) = true) files.

(** ** State and the state monad of the script *)

Section engine.
Context {W : Type} `{!Collaborators W}.

(** The mutable part of a run: the outside world, the global list
    [uploaded_files] (one object, changed in place and shared with
    [utils]), and what has happened so far. *)
Record State := mkState {
  world : W;
  uploaded_files : list Entry.t;
  trace : list Event
}.

Definition M (A : Type) : Type := State → A * State.

#[global] Instance M_ret : MRet M := λ A a st, (a, st).
#[global] Instance M_bind : MBind M := λ A B f m st, f (m st).1 (m st).2.

Definition emit (e : Event) : M unit :=
  λ st, (tt, mkState (world st) (uploaded_files st) (trace st ++ [e])).

Definition log (level : Level) (msg : string) : M unit := emit (Log level msg).

(** A collaborator call, recorded in the trace. *)
Definition call {A} (e : Event) (f : W → A * W) : M A :=
  λ st, ((f (world st)).1,
        mkState (f (world st)).2 (uploaded_files st) (trace st ++ [e])).

Definition get_uploaded_files : M (list Entry.t) := λ st, (uploaded_files st, st).

Definition set_uploaded_files (l : list Entry.t) : M unit :=
  λ st, (tt, mkState (world st) l (trace st)).

(** [for x in l: body(x)] *)
Fixpoint for_each {A} (l : list A) (body : A → M unit) : M unit :=
  match l with
  | [] => mret tt
  | x :: l' => body x;; for_each l' body
  end.

(** ** [ensure_upload_dir] *)

Fixpoint try_dirs (candidates : list string) : M string :=
  match candidates with
  | [] =>
      log ERROR "No writable directory available for upload list. Using current working directory.";;
      mret "."
  | path :: rest =>
      ok ← call (MakeDirs path) (makedirs path);
      if ok : bool then mret path
      else log WARNING ("Could not create directory " +:+ path);; try_dirs rest
  end.

Definition ensure_upload_dir : M string := try_dirs [PREFERRED_DIR; FALLBACK_DIR].

(** ** The globals of the script *)

Section globals.
Context (args : Args.t) (upload_list_path : string).

(** [args.tvip.split(',') if args.tvip else []] *)
Definition tvip : list string :=
  match Args.tvip args with
  | Some s => if bool_decide (s ≠ "") then split ","%char s else []
  | None => []
  end.

Definition sources : list SourceModule :=
  (if Args.bing_wallpapers args then [bing_wallpapers] else []) ++
  (if Args.google_art args then [google_art] else []) ++
  (if Args.media_folder args then [media_folder] else []).

(** [tv_ip if len(tvip) > 1 else None] *)
Definition device_scope (tv_ip : string) : option string :=
  if bool_decide (1 < length tvip) then Some tv_ip else None.

(** [json.dump(uploaded_files, f)] on [upload_list_path]. *)
Definition json_dump : M unit :=
  files ← get_uploaded_files;
  call (JsonDump upload_list_path files) (write_json upload_list_path files).

(** Modelled from the spec: [Utils.get_remote_filename] of
    [utils/utils.py], the store's [find]: an exact-match lookup on image
    identifier, source name and device scope that returns the artifact id
    of the newest matching record, or nothing.  [utils] holds the list
    [uploaded_files] itself, so it sees every removal and insert. *)
Definition get_remote_filename
    (image_url : option string) (source_name : option string) (tv_ip : string)
    : M (option string) :=
  files ← get_uploaded_files;
  mret (store_find files image_url source_name (device_scope tv_ip)).

(** ** [remove_uploaded_entry] *)

Definition remove_uploaded_entry
    (image_url : option string) (source_name : option string) (tv_ip : string)
    : M unit :=
  let target_ip := device_scope tv_ip in
  files ← get_uploaded_files;
  let original_len := length files in
  let files' := filter (λ entry,
                  ¬ (Entry.file entry = image_url
                     ∧ Entry.source entry = source_name
                     ∧ Entry.tv_ip entry = target_ip)) files in
  set_uploaded_files files';;
  if bool_decide (length files' ≠ original_len) then json_dump else mret tt.

(** ** [save_debug_image] *)

Definition save_debug_image (image_data : bytes) (filename : string) : M unit :=
  if Args.debugimage args then
    emit (DebugImage filename image_data);;
    log INFO ("Debug image saved as " +:+ filename)
  else mret tt.

(** The fetch and prepare steps that follow a successful [get_image]
    (the same four lines in three places of the script). *)
Definition prepare (source_name : string) (original_image_data : bytes) : M bytes :=
  save_debug_image original_image_data ("debug_" +:+ source_name +:+ "_original.jpg");;
  log INFO "Resizing and cropping the image...";;
  resized_image_data ← call (ResizeAndCrop original_image_data)
                            (resize_and_crop_image original_image_data);
  save_debug_image resized_image_data ("debug_" +:+ source_name +:+ "_resized.jpg");;
  mret resized_image_data.

(** ** [ensure_image_data] *)

Definition ensure_image_data
    (image_data : option bytes) (file_type : option string)
    (source_name : option string) (image_url : option string)
    : M (option bytes * option string) :=
  match image_data, file_type with
  | Some _, Some _ => mret (image_data, file_type)
  | _, _ =>
      match source_name ≫= (source_lookup !!.) with
      | None =>
          log ERROR "Unknown source, cannot retrieve image data.";;
          mret (None, None)
      | Some source_module =>
          '(original_image_data, retrieved_file_type) ←
            call (GetImage source_module image_url) (get_image source_module image_url);
          match original_image_data with
          | None =>
              log ERROR "Failed to retrieve image data";;
              mret (None, None)
          | Some original_image_data =>
              (* [source_name] is a string here: the lookup found it *)
              resized_image_data ← prepare (default "" source_name) original_image_data;
              mret (Some resized_image_data, retrieved_file_type)
          end
      end
  end.

(** ** [process_tv] *)

(** Lines 137-151: select the recorded picture when there is one and no
    re-upload is forced.  [None] is the [return] after a successful
    select; otherwise the values of [needs_upload] and [remote_filename]
    with which the function goes on. *)
Definition select_existing
    (tv_ip : string) (image_url remote_filename source_name : option string)
    (needs_upload : bool) : M (option (bool * option string)) :=
  match remote_filename with
  | Some remote =>
      if negb (Args.upload_all args) then
        log INFO ("Setting existing image on TV at " +:+ tv_ip +:+ ", skipping upload");;
        res ← call (ArtSelectImage tv_ip remote) (art_select_image tv_ip remote);
        match res with
        | SelectOk => mret None
        | SelectResponseError =>
            log WARNING ("Existing image on TV at " +:+ tv_ip +:+ " unavailable, re-uploading");;
            remove_uploaded_entry image_url source_name tv_ip;;
            mret (Some (true, None))
        | SelectException =>
            log WARNING ("Failed to select existing image on TV at " +:+ tv_ip +:+ ", re-uploading");;
            remove_uploaded_entry image_url source_name tv_ip;;
            mret (Some (true, None))
        end
      else mret (Some (needs_upload, remote_filename))
  | None => mret (Some (needs_upload, remote_filename))
  end.

(** Lines 165-184: the [try] block with the upload, the select of the
    new picture and the new record; every exception ends in the same
    handler. *)
Definition upload_and_record
    (tv_ip : string) (image_data : bytes) (file_type : string)
    (image_url source_name : option string) : M unit :=
  let failed := log ERROR ("There was an error uploading the image to TV at " +:+ tv_ip) in
  log INFO ("Uploading image to TV at " +:+ tv_ip);;
  res ← call (ArtUpload tv_ip image_data file_type) (art_upload tv_ip image_data file_type);
  match res with
  | UploadRaised => failed
  | UploadReturned None => failed
  | UploadReturned (Some remote_filename) =>
      sel ← call (ArtSelectImage tv_ip remote_filename) (art_select_image tv_ip remote_filename);
      match sel with
      | SelectOk =>
          log INFO ("Image uploaded and selected on TV at " +:+ tv_ip);;
          files ← get_uploaded_files;
          set_uploaded_files
            (files ++ [Entry.mk image_url (Some remote_filename) (device_scope tv_ip) source_name]);;
          json_dump
      | _ => failed
      end
  end.

(** Lines 153-184: prepare the image, drop the record that is about to
    be replaced, upload. *)
Definition upload_path
    (tv_ip : string) (image_data : option bytes) (file_type : option string)
    (image_url remote_filename source_name : option string) (needs_upload : bool) : M unit :=
  if negb needs_upload then mret tt
  else
    '(image_data, file_type) ← ensure_image_data image_data file_type source_name image_url;
    match image_data, file_type with
    | Some image_data, Some file_type =>
        (if bool_decide (remote_filename ≠ None)
         then remove_uploaded_entry image_url source_name tv_ip
         else mret tt);;
        upload_and_record tv_ip image_data file_type image_url source_name
    | _, _ =>
        log ERROR ("Unable to prepare image data for TV at " +:+ tv_ip +:+ ", skipping upload.")
    end.

Definition process_tv
    (tv_ip : string) (image_data : option bytes) (file_type : option string)
    (image_url remote_filename source_name : option string) : M unit :=
  supported ← call (ArtSupported tv_ip) (art_supported tv_ip);
  if negb supported then
    log WARNING ("TV at " +:+ tv_ip +:+ " does not support art mode.")
  else
    let needs_upload := bool_decide (remote_filename = None) || Args.upload_all args in
    r ← select_existing tv_ip image_url remote_filename source_name needs_upload;
    match r with
    | None => mret tt
    | Some (needs_upload, remote_filename) =>
        upload_path tv_ip image_data file_type image_url remote_filename source_name
                    needs_upload
    end.

(** [random.choice(sources)] and the log line after it. *)
Definition choose_source : M SourceModule :=
  i ← call RandomChoice (random_choice (length sources));
  let selected_source := default bing_wallpapers (sources !! (i mod length sources)) in
  log INFO ("Selected source: " +:+ __name__ selected_source);;
  mret selected_source.

(** ** [get_image_for_tv] *)

Definition get_image_for_tv (tv_ip : string)
    : M (option bytes * option string * option string * option string * option string) :=
  selected_source ← choose_source;
  image_url ← call (GetImageUrl selected_source) (get_image_url selected_source);
  remote_filename ← get_remote_filename image_url (Some (__name__ selected_source)) tv_ip;
  if truthy remote_filename then
    mret (None, None, image_url, remote_filename, Some (__name__ selected_source))
  else
    '(image_data, file_type) ←
      call (GetImage selected_source image_url) (get_image selected_source image_url);
    match image_data with
    | None => mret (None, None, None, None, None)
    | Some image_data =>
        resized_image_data ← prepare (__name__ selected_source) image_data;
        mret (Some resized_image_data, file_type, image_url, None,
              Some (__name__ selected_source))
    end.

(** ** The device loops (lines 215-260) *)

(** Lines 229-234: which televisions have a record, which need an upload. *)
Fixpoint lookup_targets
    (image_url : option string) (source_name : string) (l : list string)
    (remote_filenames : gmap string string) (upload_targets : list string)
    : M (gmap string string * list string) :=
  match l with
  | [] => mret (remote_filenames, upload_targets)
  | tv_ip :: rest =>
      remote ← get_remote_filename image_url (Some source_name) tv_ip;
      match remote with
      | Some r =>
          if truthy remote
          then lookup_targets image_url source_name rest (<[tv_ip := r]> remote_filenames) upload_targets
          else lookup_targets image_url source_name rest remote_filenames (upload_targets ++ [tv_ip])
      | None => lookup_targets image_url source_name rest remote_filenames (upload_targets ++ [tv_ip])
      end
  end.

(** Lines 236-249: the image is fetched here only when some television
    needs an upload.  [None] is the [sys.exit(1)] of line 242. *)
Definition fetch_shared
    (selected_source : SourceModule) (image_url : option string) (upload_targets : list string)
    : M (option (option bytes * option string)) :=
  match upload_targets with
  | [] => mret (Some (None, None))
  | _ :: _ =>
      '(original_image_data, file_type) ←
        call (GetImage selected_source image_url) (get_image selected_source image_url);
      match original_image_data with
      | None =>
          log ERROR "Failed to retrieve image data for same-image mode.";;
          mret None
      | Some original_image_data =>
          image_data ← prepare (__name__ selected_source) original_image_data;
          mret (Some (Some image_data, file_type))
      end
  end.

(** Lines 217-253: one image for all televisions. *)
Definition same_image_loop : M Status :=
  selected_source ← choose_source;
  image_url ← call (GetImageUrl selected_source) (get_image_url selected_source);
  if negb (truthy image_url) then
    log ERROR "No image URL available for same-image mode.";;
    mret (SysExit 1)
  else
    let source_name := __name__ selected_source in
    '(remote_filenames, upload_targets) ← lookup_targets image_url source_name tvip ∅ [];
    fetched ← fetch_shared selected_source image_url upload_targets;
    match fetched with
    | None => mret (SysExit 1)
    | Some (image_data, file_type) =>
        for_each tvip (λ tv_ip,
          process_tv tv_ip image_data file_type image_url
                     (remote_filenames !! tv_ip) (Some source_name));;
        mret Completed
    end.

(** Lines 255-257: an image of its own for every television. *)
Definition sync_tv (tv_ip : string) : M unit :=
  '(image_data, file_type, image_url, remote_filename, source_name) ← get_image_for_tv tv_ip;
  process_tv tv_ip image_data file_type image_url remote_filename source_name.

Definition device_loops : M Status :=
  match tvip with
  | _ :: _ =>
      if bool_decide (1 < length tvip) && Args.same_image args then same_image_loop
      else for_each tvip sync_tv;; mret Completed
  | [] =>
      log ERROR "No TV IP addresses specified. Please use --tvip";;
      mret (SysExit 1)
  end.

End globals.

(** ** The script, top to bottom *)

(** Lines 46-54: the directory, the path of the upload list, the list
    itself. *)
Definition startup : M string :=
  DATA_DIR ← ensure_upload_dir;
  let upload_list_path := path_join DATA_DIR "uploaded_files.json" in
  loaded ← call (LoadJson upload_list_path) (load_json upload_list_path);
  set_uploaded_files (default [] loaded);;
  mret upload_list_path.

Definition main (args : Args.t) : M Status :=
  upload_list_path ← startup;
  match sources args with
  | [] =>
      log ERROR "No image source specified. Please use --google-art, --bing-wallpapers, or --media-folder";;
      mret (SysExit 1)
  | _ :: _ => device_loops args upload_list_path
  end.

(** ** Vocabulary of the properties *)

(** [emits m P]: from every state, [m] only appends events, and each
    appended event satisfies [P]. *)
Definition emits {A} (m : M A) (P : Event → Prop) : Prop :=
  ∀ st, ∃ evs, trace (m st).2 = trace st ++ evs ∧ Forall P evs.

(** The state in which [process_tv] goes on after the capability check. *)
Definition checked (tv_ip : string) (st : State) : State :=
  (call (ArtSupported tv_ip) (art_supported tv_ip) st).2.

(** From [st] to [st'] the store is the same list and only idle events
    were appended to the trace. *)
Definition reuses_only (st st' : State) : Prop :=
  uploaded_files st' = uploaded_files st
  ∧ ∃ evs, trace st' = trace st ++ evs ∧ Forall idle evs.

End engine.

Arguments State : clear implicits.
Arguments M : clear implicits.

(** * A scripted world

    A concrete instance of the collaborators, for running the script on
    examples: directories that can or cannot be created, a disk, sources
    with fixed answers, televisions that know some pictures and not
    others, and a list of the answers of the coming uploads. *)

Module Sim.

Record t := mk {
  (** directories that [os.makedirs] can create *)
  dirs : list string;
  (** the JSON files on disk *)
  disk : gmap string (list Entry.t);
  (** the index that [random.choice] draws *)
  choice : nat;
  (** the image url of each source *)
  urls : SourceModule → option string;
  (** the image data and file type of each source *)
  images : SourceModule → option bytes * option string;
  (** the televisions that support art mode *)
  art_mode : list string;
  (** artifact ids that a television answers with [ResponseError] *)
  stale : list string;
  (** televisions on which every select raises another exception *)
  unreachable : list string;
  (** the answers of the coming uploads, in order *)
  uploads : list UploadResult
}.

#[global] Instance collaborators : Collaborators t := {|
  makedirs path w := (bool_decide (path ∈ dirs w), w);
  load_json path w := (disk w !! path, w);
  random_choice n w := (choice w, w);
  get_image_url m w := (urls w m, w);
  get_image m image_url w := (images w m, w);
  resize_and_crop_image image_data w := (image_data, w);
  art_supported tv_ip w := (bool_decide (tv_ip ∈ art_mode w), w);
  art_select_image tv_ip remote_filename w :=
    (if bool_decide (remote_filename ∈ stale w) then SelectResponseError
     else if bool_decide (tv_ip ∈ unreachable w) then SelectException
     else SelectOk, w);
  art_upload tv_ip image_data file_type w :=
    match uploads w with
    | [] => (UploadRaised, w)
    | answer :: rest =>
        (answer, mk (dirs w) (disk w) (choice w) (urls w) (images w) (art_mode w)
                    (stale w) (unreachable w) rest)
    end;
  write_json path files w :=
    (tt, mk (dirs w) (<[path := files]> (disk w)) (choice w) (urls w) (images w)
            (art_mode w) (stale w) (unreachable w) (uploads w))
|}.

Definition living_room : string := "192.168.1.20".
Definition bedroom : string := "192.168.1.21".
Definition sunrise : string := "https://www.bing.com/th?id=OHR.Sunrise_1920x1080.jpg".
Definition jpeg : bytes := [Byte.xff; Byte.xd8; Byte.xff; Byte.xe0].
Definition state_file : string := "/share/SamsungFrameTVArtChanger/uploaded_files.json".

(** Bing as the only source, one picture, televisions that support art
    mode and know every picture; the uploads are still to be given. *)
Definition home (answers : list UploadResult) : t := {|
  dirs := [PREFERRED_DIR; FALLBACK_DIR];
  disk := ∅;
  choice := 0;
  urls := λ _, Some sunrise;
  images := λ _, (Some jpeg, Some "jpg");
  art_mode := [living_room; bedroom];
  stale := [];
  unreachable := [];
  uploads := answers
|}.

Definition set_disk (files : list Entry.t) (w : t) : t :=
  mk (dirs w) {[state_file := files]} (choice w) (urls w) (images w) (art_mode w)
     (stale w) (unreachable w) (uploads w).

Definition set_dirs (paths : list string) (w : t) : t :=
  mk paths (disk w) (choice w) (urls w) (images w) (art_mode w)
     (stale w) (unreachable w) (uploads w).


Definition set_images (image : option bytes * option string) (w : t) : t :=
  mk (dirs w) (disk w) (choice w) (urls w) (λ _, image) (art_mode w)
     (stale w) (unreachable w) (uploads w).

Definition set_art_mode (tvs : list string) (w : t) : t :=
  mk (dirs w) (disk w) (choice w) (urls w) (images w) tvs
     (stale w) (unreachable w) (uploads w).

Definition set_stale (ids : list string) (w : t) : t :=
  mk (dirs w) (disk w) (choice w) (urls w) (images w) (art_mode w)
     ids (unreachable w) (uploads w).

Definition set_unreachable (tvs : list string) (w : t) : t :=
  mk (dirs w) (disk w) (choice w) (urls w) (images w) (art_mode w)
     (stale w) tvs (uploads w).

(** [--bing-wallpapers --tvip <tvip>], with or without [--same-image]. *)
Definition bing (tvip : string) (same_image : bool) : Args.t := {|
  Args.upload_all := false;
  Args.debug := false;
  Args.tvip := Some tvip;
  Args.same_image := same_image;
  Args.google_art := false;
  Args.download_high_res := false;
  Args.bing_wallpapers := true;
  Args.media_folder := false;
  Args.debugimage := false
|}.

(** The record of [sunrise] from Bing with the given scope and artifact id. *)
Definition record (scope : option string) (remote_filename : string) : Entry.t :=
  Entry.mk (Some sunrise) (Some remote_filename) scope (Some (__name__ bing_wallpapers)).

(** A state in the middle of a run: a world, a store, an empty trace. *)
Definition start (w : t) (files : list Entry.t) : State t := mkState w files [].

End Sim.

(** * A world without failures

    Every directory can be created, the source always delivers the same
    picture, every television supports art mode, accepts every select and
    acknowledges every upload with a fresh artifact id.  The world is the
    number of uploads so far. *)

Module Steady.

Definition t := nat.

Fixpoint tally (n : nat) : string :=
  match n with
  | 0 => ""
  | S n => String "I" (tally n)
  end.

#[global] Instance collaborators : Collaborators t := {|
  makedirs path w := (true, w);
  load_json path w := (None, w);
  random_choice n w := (0, w);
  get_image_url m w := (Some Sim.sunrise, w);
  get_image m image_url w := ((Some Sim.jpeg, Some "jpg"), w);
  resize_and_crop_image image_data w := (image_data, w);
  art_supported tv_ip w := (true, w);
  art_select_image tv_ip remote_filename w := (SelectOk, w);
  art_upload tv_ip image_data file_type w := (UploadReturned (Some ("MY_F" +:+ tally w)), S w);
  write_json path files w := (tt, w)
|}.

(** A state in the middle of a run: no upload yet, a store, an empty trace. *)
Definition start (files : list Entry.t) : State t := mkState 0 files [].

End Steady.

(** * Vocabulary of the further properties *)

(** [sep.join(l)] *)
Fixpoint join (sep : ascii) (l : list string) : string :=
  match l with
  | [] => ""
  | [x] => x
  | x :: rest => x +:+ String sep (join sep rest)
  end.

(** How often a character occurs in a string. *)
Fixpoint occurrences (c : ascii) (s : string) : nat :=
  match s with
  | EmptyString => 0
  | String c' s' => (if decide (c' = c) then 1 else 0) + occurrences c s'
  end.

(** From [st] to [st'] only events that satisfy [P] were appended. *)
Definition appended {W} (P : Event → Prop) (st st' : State W) : Prop :=
  ∃ evs, trace st' = trace st ++ evs ∧ Forall P evs.

(** What the command line and the upload list at [upload_list_path] allow
    a run to do: log, draw, resize; create the two data directories; read
    and write that one upload list; ask the enabled sources; save debug
    images with [--debugimage]; talk to the televisions of [--tvip]. *)
Definition permitted (args : Args.t) (upload_list_path : string) (e : Event) : Prop :=
  match e with
  | Log _ _ | RandomChoice | ResizeAndCrop _ => True
  | MakeDirs path => path = PREFERRED_DIR ∨ path = FALLBACK_DIR
  | LoadJson path | JsonDump path _ => path = upload_list_path
  | GetImageUrl m | GetImage m _ => m ∈ sources args
  | DebugImage _ _ => Args.debugimage args = true
  | ArtSupported tv_ip | ArtSelectImage tv_ip _ | ArtUpload tv_ip _ _ => tv_ip ∈ tvip args
  end.

(** The same command line with [--upload-all]. *)
Definition with_upload_all (args : Args.t) : Args.t :=
  Args.mk true (Args.debug args) (Args.tvip args) (Args.same_image args)
          (Args.google_art args) (Args.download_high_res args) (Args.bing_wallpapers args)
          (Args.media_folder args) (Args.debugimage args).

Definition is_select (e : Event) : bool :=
  match e with ArtSelectImage _ _ => true | _ => false end.

(** * Properties *)

Section properties.
Context {W : Type} `{!Collaborators W}.
Implicit Types st : State W.


(** ** Running the monad *)

Lemma run_bind {A B} (m : M W A) (f : A → M W B) st :
  (m ≫= f) st = f (m st).1 (m st).2.
Proof. reflexivity. Qed.

Lemma run_ret {A} (a : A) st : mret (M := M W) a st = (a, st).
Proof. reflexivity. Qed.

Lemma run_emit e st :
  emit e st = (tt, mkState (world st) (uploaded_files st) (trace st ++ [e])).
Proof. reflexivity. Qed.

Lemma run_call {A} e (f : W → A * W) st :
  call e f st = ((f (world st)).1,
                 mkState (f (world st)).2 (uploaded_files st) (trace st ++ [e])).
Proof. reflexivity. Qed.

Lemma run_log level msg st :
  log level msg st
  = (tt, mkState (world st) (uploaded_files st) (trace st ++ [Log level msg])).
Proof. reflexivity. Qed.

Lemma run_get_uploaded_files st : get_uploaded_files st = (uploaded_files st, st).
Proof. reflexivity. Qed.

Lemma run_set_uploaded_files l st :
  set_uploaded_files l st = (tt, mkState (world st) l (trace st)).
Proof. reflexivity. Qed.

Ltac run :=
  repeat first
    [ rewrite run_bind | rewrite run_ret | rewrite run_log | rewrite run_emit
    | rewrite run_call | rewrite run_get_uploaded_files | rewrite run_set_uploaded_files
    | progress cbn [fst snd world uploaded_files trace] ].

(** ** The capability check: [process_tv], lines 130-133 *)

(** Lines 130-133: without art mode [process_tv] logs a warning and
    returns. *)
Lemma run_process_tv_unsupported
    args upload_list_path tv_ip image_data file_type image_url remote_filename source_name st :
  (art_supported tv_ip (world st)).1 = false →
  process_tv args upload_list_path tv_ip image_data file_type image_url
             remote_filename source_name st
  = (tt, mkState (art_supported tv_ip (world st)).2
                 (uploaded_files st)
                 (trace st ++ [ArtSupported tv_ip;
                               Log WARNING ("TV at " +:+ tv_ip +:+ " does not support art mode.")])).
Proof.
  intros Hsup. unfold process_tv.
  rewrite run_bind, run_call, Hsup. cbn.
  rewrite run_log. cbn. by rewrite <- (assoc_L (++)).
Qed.

(** C7. A television that reports no art mode support is only asked that
    one question: [process_tv] logs one warning and returns, whatever the
    store holds and whatever record or image was passed in.  No upload is
    attempted, nothing is fetched, nothing is written, the store is the
    same list. *)
Theorem process_tv_unsupported
    args upload_list_path tv_ip image_data file_type image_url remote_filename source_name st :
  (art_supported tv_ip (world st)).1 = false →
  let final := (process_tv args upload_list_path tv_ip image_data file_type image_url
                           remote_filename source_name st).2 in
  uploaded_files final = uploaded_files st
  ∧ trace final
    = trace st ++ [ArtSupported tv_ip;
                   Log WARNING ("TV at " +:+ tv_ip +:+ " does not support art mode.")]
  ∧ count is_upload (trace final) = count is_upload (trace st)
  ∧ count is_write (trace final) = count is_write (trace st).
Proof.
  intros Hsup final. subst final. rewrite run_process_tv_unsupported by done.
  cbn [snd uploaded_files trace]. split; [done|]. split; [done|].
  unfold count. rewrite !filter_app. cbn. by rewrite !app_nil_r.
Qed.


(** ** The directory of the upload list: [ensure_upload_dir] *)

Lemma run_try_dirs_cons path rest st :
  try_dirs (path :: rest) st
  = if (makedirs path (world st)).1
    then (path, mkState (makedirs path (world st)).2 (uploaded_files st)
                        (trace st ++ [MakeDirs path]))
    else try_dirs rest
           (mkState (makedirs path (world st)).2 (uploaded_files st)
                    (trace st ++ [MakeDirs path;
                                  Log WARNING ("Could not create directory " +:+ path)])).
Proof.
  cbn [try_dirs]. rewrite run_bind, run_call. cbn [fst snd].
  destruct (makedirs path (world st)).1; [done|].
  rewrite run_bind, run_log. cbn. by rewrite <- (assoc_L (++)).
Qed.

(** C8. [ensure_upload_dir] asks for the preferred directory first and
    the fallback directory second, and returns the first that
    [os.makedirs] creates.  When both fail it returns the current
    directory, after a warning for each failed directory and an error
    line.  It is a total function: it returns a directory in every
    world. *)
Theorem ensure_upload_dir_first_creatable st :
  let preferred := makedirs PREFERRED_DIR (world st) in
  let fallback := makedirs FALLBACK_DIR preferred.2 in
  let result := ensure_upload_dir st in
  (preferred.1 = true →
     result.1 = PREFERRED_DIR ∧ trace result.2 = trace st ++ [MakeDirs PREFERRED_DIR])
  ∧ (preferred.1 = false → fallback.1 = true →
     result.1 = FALLBACK_DIR
     ∧ trace result.2
       = trace st ++ [MakeDirs PREFERRED_DIR;
                      Log WARNING ("Could not create directory " +:+ PREFERRED_DIR);
                      MakeDirs FALLBACK_DIR])
  ∧ (preferred.1 = false → fallback.1 = false →
     result.1 = "."
     ∧ trace result.2
       = trace st ++ [MakeDirs PREFERRED_DIR;
                      Log WARNING ("Could not create directory " +:+ PREFERRED_DIR);
                      MakeDirs FALLBACK_DIR;
                      Log WARNING ("Could not create directory " +:+ FALLBACK_DIR);
                      Log ERROR "No writable directory available for upload list. Using current working directory."])
  ∧ result.1 ∈ [PREFERRED_DIR; FALLBACK_DIR; "."]
  ∧ uploaded_files result.2 = uploaded_files st.
Proof.
  intros preferred fallback result. subst result. unfold ensure_upload_dir.
  rewrite run_try_dirs_cons. fold preferred.
  destruct preferred.1 eqn:Hp.
  { cbn. repeat split; try done. rewrite !elem_of_cons; auto. }
  rewrite run_try_dirs_cons. cbn [world uploaded_files trace]. fold fallback.
  destruct fallback.1 eqn:Hf; cbn [try_dirs]; run; repeat split; try done;
    try (by rewrite <- !(assoc_L (++))); rewrite !elem_of_cons; auto.
Qed.


(** ** What a computation appends to the trace *)

Lemma emits_ret {A} (a : A) P : emits (W := W) (mret a) P.
Proof. intros st. exists []. by rewrite app_nil_r. Qed.

Lemma emits_bind {A B} (m : M W A) (f : A → M W B) P :
  emits m P → (∀ a, emits (f a) P) → emits (m ≫= f) P.
Proof.
  intros Hm Hf st. rewrite run_bind.
  destruct (Hm st) as (evs1 & E1 & F1).
  destruct (Hf (m st).1 (m st).2) as (evs2 & E2 & F2).
  exists (evs1 ++ evs2). rewrite E2, E1, (assoc_L (++)). split; [done|].
  by apply Forall_app.
Qed.

Lemma emits_bind_pure {A B} (m : M W A) (f : A → M W B) a P :
  (∀ st, m st = (a, st)) → emits (f a) P → emits (m ≫= f) P.
Proof. intros Hm Hf st. rewrite run_bind, Hm. apply Hf. Qed.

Lemma emits_emit e (P : Event → Prop) : P e → emits (W := W) (emit e) P.
Proof. intros He st. exists [e]. split; [done|]. by apply Forall_singleton. Qed.

Lemma emits_log level msg (P : Event → Prop) : P (Log level msg) → emits (W := W) (log level msg) P.
Proof. apply emits_emit. Qed.

Lemma emits_call {A} e (f : W → A * W) (P : Event → Prop) : P e → emits (call e f) P.
Proof. intros He st. exists [e]. split; [done|]. by apply Forall_singleton. Qed.

Lemma emits_get_uploaded_files P : emits (W := W) get_uploaded_files P.
Proof. intros st. exists []. by rewrite app_nil_r. Qed.

Lemma emits_set_uploaded_files l P : emits (W := W) (set_uploaded_files l) P.
Proof. intros st. exists []. cbn. by rewrite app_nil_r. Qed.

Lemma emits_for_each {A} (l : list A) (body : A → M W unit) P :
  (∀ x, x ∈ l → emits (body x) P) → emits (for_each l body) P.
Proof.
  induction l as [|x l IH]; intros Hbody; cbn [for_each]; [apply emits_ret|].
  apply emits_bind; [apply Hbody; left|].
  intros _. apply IH. intros y Hy. apply Hbody. by right.
Qed.

Lemma emits_weaken {A} (m : M W A) (P Q : Event → Prop) :
  (∀ e, P e → Q e) → emits m P → emits m Q.
Proof.
  intros HPQ Hm st. destruct (Hm st) as (evs & E & F).
  exists evs. split; [done|]. by eapply Forall_impl.
Qed.

(** An event kind that is never appended keeps its count. *)
Lemma emits_count {A} (m : M W A) (kind : Event → bool) st :
  emits m (λ e, kind e = false) → count kind (trace (m st).2) = count kind (trace st).
Proof.
  intros Hm. destruct (Hm st) as (evs & -> & F).
  unfold count. rewrite filter_app, length_app.
  replace (filter (λ e, kind e) evs) with (@nil Event); [cbn; lia|].
  symmetry. induction F as [|e evs He _ IH]; [done|].
  rewrite filter_cons_False; [exact IH|]. rewrite He. intros [].
Qed.

Lemma count_app kind tr1 tr2 : count kind (tr1 ++ tr2) = count kind tr1 + count kind tr2.
Proof. unfold count. by rewrite filter_app, length_app. Qed.

Lemma count_nil kind : count kind [] = 0.
Proof. reflexivity. Qed.

Lemma count_cons kind e tr :
  count kind (e :: tr) = (if kind e then 1 else 0) + count kind tr.
Proof.
  unfold count. rewrite filter_cons.
  destruct (kind e); by destruct (decide _).
Qed.

Lemma count_none kind (P : Event → Prop) evs :
  Forall P evs → (∀ e, P e → kind e = false) → count kind evs = 0.
Proof.
  intros HP Hk. induction HP as [|e evs He _ IH]; [done|].
  unfold count in *. rewrite filter_cons_False; [done|].
  rewrite (Hk e He). intros [].
Qed.

Lemma count_singleton kind e : count kind [e] = if kind e then 1 else 0.
Proof.
  unfold count. rewrite filter_cons, filter_nil.
  destruct (kind e); by destruct (decide _).
Qed.

Ltac emits_step :=
  match goal with
  | |- emits (mret _) _ => apply emits_ret
  | |- emits (_ ≫= _) _ => apply emits_bind
  | |- emits (log _ _) _ => apply emits_log
  | |- emits (emit _) _ => apply emits_emit
  | |- emits (call _ _) _ => apply emits_call
  | |- emits get_uploaded_files _ => apply emits_get_uploaded_files
  | |- emits (set_uploaded_files _) _ => apply emits_set_uploaded_files
  | |- emits (for_each _ _) _ => apply emits_for_each
  | |- emits (if ?b then _ else _) _ => destruct b
  | |- emits (match ?x with _ => _ end) _ => destruct x
  | |- ∀ _, _ => intro
  end.

Ltac solve_emits := repeat emits_step; try done.

Section process.
Context (args : Args.t) (upload_list_path : string).

(** ** The pieces of [process_tv] *)

Lemma filter_not_key (url src scope : option string) (files : list Entry.t) :
  filter (λ entry, ¬ (Entry.file entry = url ∧ Entry.source entry = src
                      ∧ Entry.tv_ip entry = scope)) files
  = filter (λ entry, Entry.key entry ≠ (url, src, scope)) files.
Proof.
  apply list_filter_iff. intros [f r t s']. unfold Entry.key. cbn.
  split; intros H1 H2; apply H1.
  - by inversion H2.
  - destruct H2 as (-> & -> & ->). done.
Qed.

(** [remove_uploaded_entry] keeps exactly the records of other keys; it
    rewrites the file only when a record was dropped. *)
Lemma remove_uploaded_entry_files image_url source_name tv_ip st :
  uploaded_files (remove_uploaded_entry args upload_list_path image_url source_name tv_ip st).2
  = filter (λ entry, Entry.key entry ≠ (image_url, source_name, device_scope args tv_ip))
           (uploaded_files st).
Proof.
  unfold remove_uploaded_entry. run.
  rewrite filter_not_key.
  by destruct (bool_decide _).
Qed.

Lemma ensure_image_data_files image_data file_type source_name image_url st :
  uploaded_files (ensure_image_data args image_data file_type source_name image_url st).2
  = uploaded_files st.
Proof.
  unfold ensure_image_data, prepare, save_debug_image.
  destruct image_data, file_type; run; try done;
    destruct (source_name ≫= _); run; try done;
    destruct (get_image _ _ _) as [[[d|] ft] w]; run; try done;
    destruct (Args.debugimage args); run; done.
Qed.

Lemma emits_ensure_image_data image_data file_type source_name image_url (P : Event → Prop) :
  (∀ level msg, P (Log level msg)) →
  (∀ m, P (GetImage m image_url)) →
  (∀ d, P (ResizeAndCrop d)) →
  (∀ f d, P (DebugImage f d)) →
  emits (ensure_image_data args image_data file_type source_name image_url) P.
Proof.
  intros. unfold ensure_image_data, prepare, save_debug_image. solve_emits.
Qed.

(** *** Lines 137-151 *)

Lemma select_existing_skip tv_ip image_url remote_filename source_name needs_upload st :
  remote_filename = None ∨ Args.upload_all args = true →
  select_existing args upload_list_path tv_ip image_url remote_filename source_name
                  needs_upload st
  = (Some (needs_upload, remote_filename), st).
Proof.
  unfold select_existing. intros [->| ->]; [done|]. by destruct remote_filename.
Qed.

Lemma select_existing_ok tv_ip image_url remote source_name needs_upload st :
  Args.upload_all args = false →
  (art_select_image tv_ip remote (world st)).1 = SelectOk →
  select_existing args upload_list_path tv_ip image_url (Some remote) source_name
                  needs_upload st
  = (None,
     mkState (art_select_image tv_ip remote (world st)).2 (uploaded_files st)
             (trace st ++ [Log INFO ("Setting existing image on TV at " +:+ tv_ip
                                     +:+ ", skipping upload");
                           ArtSelectImage tv_ip remote])).
Proof.
  intros Hall Hsel. unfold select_existing. rewrite Hall. cbn [negb]. run.
  rewrite Hsel. run. by rewrite <- (assoc_L (++)).
Qed.

(** A failed select, of either kind, drops the records of the key and
    goes on to the upload with [needs_upload = True] and no remote file
    name. *)
Lemma select_existing_failure tv_ip image_url remote source_name needs_upload st :
  Args.upload_all args = false →
  (art_select_image tv_ip remote (world st)).1 ≠ SelectOk →
  let r := select_existing args upload_list_path tv_ip image_url (Some remote)
                           source_name needs_upload st in
  r.1 = Some (true, None)
  ∧ uploaded_files r.2
    = filter (λ entry, Entry.key entry ≠ (image_url, source_name, device_scope args tv_ip))
             (uploaded_files st).
Proof.
  intros Hall Hsel. unfold select_existing. rewrite Hall. cbn [negb]. run.
  destruct (art_select_image tv_ip remote (world st)).1; [done| |]; run;
    by rewrite remove_uploaded_entry_files.
Qed.

Lemma emits_select_existing tv_ip image_url remote_filename source_name needs_upload
    (P : Event → Prop) :
  (∀ level msg, P (Log level msg)) →
  (∀ r, P (ArtSelectImage tv_ip r)) →
  (∀ files, P (JsonDump upload_list_path files)) →
  emits (select_existing args upload_list_path tv_ip image_url remote_filename source_name
                         needs_upload) P.
Proof.
  intros. unfold select_existing, remove_uploaded_entry, json_dump. solve_emits.
Qed.

(** *** Lines 165-184 *)

(** What the [try] block of lines 165-184 leaves behind. *)
Lemma run_upload_and_record tv_ip image_data file_type image_url source_name st :
  let up := art_upload tv_ip image_data file_type (world st) in
  let result := (upload_and_record args upload_list_path tv_ip image_data file_type
                                   image_url source_name st).2 in
  uploaded_files result
  = match up.1 with
    | UploadReturned (Some remote_filename) =>
        match (art_select_image tv_ip remote_filename up.2).1 with
        | SelectOk =>
            uploaded_files st
            ++ [Entry.mk image_url (Some remote_filename) (device_scope args tv_ip) source_name]
        | _ => uploaded_files st
        end
    | _ => uploaded_files st
    end
  ∧ match up.1 with
    | UploadReturned (Some _) => True
    | _ =>
        result
        = mkState up.2 (uploaded_files st)
            (trace st ++ [Log INFO ("Uploading image to TV at " +:+ tv_ip);
                          ArtUpload tv_ip image_data file_type;
                          Log ERROR ("There was an error uploading the image to TV at "
                                     +:+ tv_ip)])
    end.
Proof.
  intros up result. subst result. unfold upload_and_record. run. fold up.
  destruct up.1 as [[remote|]|]; run.
  - split; [|done].
    destruct (art_select_image tv_ip remote up.2).1; unfold json_dump; run; done.
  - split; [done|]. by rewrite <- !(assoc_L (++)).
  - split; [done|]. by rewrite <- !(assoc_L (++)).
Qed.


(** One call of the [try] block is one upload attempt. *)
Lemma upload_and_record_count tv_ip image_data file_type image_url source_name st :
  count is_upload
    (trace (upload_and_record args upload_list_path tv_ip image_data file_type
                              image_url source_name st).2)
  = count is_upload (trace st) + 1.
Proof.
  unfold upload_and_record. run.
  destruct (art_upload _ _ _ _).1 as [[remote|]|]; run;
    [destruct (art_select_image _ _ _).1; unfold json_dump; run|..];
    rewrite !count_app, !count_singleton; cbn; lia.
Qed.

Lemma emits_upload_and_record tv_ip image_data file_type image_url source_name
    (P : Event → Prop) :
  (∀ level msg, P (Log level msg)) →
  P (ArtUpload tv_ip image_data file_type) →
  (∀ r, P (ArtSelectImage tv_ip r)) →
  (∀ files, P (JsonDump upload_list_path files)) →
  emits (upload_and_record args upload_list_path tv_ip image_data file_type
                           image_url source_name) P.
Proof. intros. unfold upload_and_record, json_dump. solve_emits. Qed.

(** *** [process_tv], path by path *)

Lemma checked_files tv_ip st : uploaded_files (checked tv_ip st) = uploaded_files st.
Proof. reflexivity. Qed.

Lemma checked_count kind tv_ip st :
  kind (ArtSupported tv_ip) = false →
  count kind (trace (checked tv_ip st)) = count kind (trace st).
Proof.
  intros Hk. unfold checked. run. rewrite count_app, count_singleton, Hk. lia.
Qed.

Lemma run_process_tv_supported
    tv_ip image_data file_type image_url remote_filename source_name st :
  (art_supported tv_ip (world st)).1 = true →
  process_tv args upload_list_path tv_ip image_data file_type image_url
             remote_filename source_name st
  = let r := select_existing args upload_list_path tv_ip image_url remote_filename source_name
               (bool_decide (remote_filename = None) || Args.upload_all args)
               (checked tv_ip st) in
    match r.1 with
    | None => (tt, r.2)
    | Some (needs_upload, remote_filename) =>
        upload_path args upload_list_path tv_ip image_data file_type image_url
                    remote_filename source_name needs_upload r.2
    end.
Proof.
  intros Hsup. unfold process_tv, checked. rewrite run_bind, run_call, Hsup.
  cbn [fst snd negb]. rewrite run_bind.
  by destruct (select_existing _ _ _ _ _ _ _ _).1 as [[? ?]|].
Qed.

Lemma run_upload_path
    tv_ip image_data file_type image_url remote_filename source_name st :
  upload_path args upload_list_path tv_ip image_data file_type image_url
              remote_filename source_name true st
  = let p := ensure_image_data args image_data file_type source_name image_url st in
    match p.1 with
    | (Some d, Some ft) =>
        upload_and_record args upload_list_path tv_ip d ft image_url source_name
          ((if bool_decide (remote_filename ≠ None)
            then remove_uploaded_entry args upload_list_path image_url source_name tv_ip
            else mret tt) p.2).2
    | _ =>
        log ERROR ("Unable to prepare image data for TV at " +:+ tv_ip +:+ ", skipping upload.")
            p.2
    end.
Proof.
  unfold upload_path. cbn [negb]. rewrite run_bind.
  by destruct (ensure_image_data _ _ _ _ _ _).1 as [[?|] [?|]].
Qed.

(** C10. The select of the recorded picture fails and the image cannot
    be prepared either: [process_tv] has dropped the record on the failed
    select and returns before any upload, so at its end the store holds
    no record for the key.  When there was one, the store has changed. *)
Theorem stale_record_lost_when_prepare_fails
    tv_ip image_data file_type image_url remote source_name st :
  (art_supported tv_ip (world st)).1 = true →
  Args.upload_all args = false →
  (art_select_image tv_ip remote (world (checked tv_ip st))).1 ≠ SelectOk →
  let stale := (select_existing args upload_list_path tv_ip image_url (Some remote)
                                source_name false (checked tv_ip st)).2 in
  let prepared := (ensure_image_data args image_data file_type source_name image_url stale).1 in
  prepared.1 = None ∨ prepared.2 = None →
  let final := (process_tv args upload_list_path tv_ip image_data file_type image_url
                           (Some remote) source_name st).2 in
  uploaded_files final
  = filter (λ entry, Entry.key entry ≠ (image_url, source_name, device_scope args tv_ip))
           (uploaded_files st)
  ∧ (∀ entry, entry ∈ uploaded_files final →
              Entry.key entry ≠ (image_url, source_name, device_scope args tv_ip))
  ∧ count is_upload (trace final) = count is_upload (trace st)
  ∧ ((∃ entry, entry ∈ uploaded_files st
               ∧ Entry.key entry = (image_url, source_name, device_scope args tv_ip)) →
     uploaded_files final ≠ uploaded_files st).
Proof.
  intros Hsup Hall Hsel stale prepared Hprep final.
  assert (Hfiles : uploaded_files final
    = filter (λ entry, Entry.key entry ≠ (image_url, source_name, device_scope args tv_ip))
             (uploaded_files st)
    ∧ count is_upload (trace final) = count is_upload (trace st)).
  { subst final. rewrite run_process_tv_supported by done.
    rewrite Hall, bool_decide_eq_false_2 by done. cbn [orb]. cbn zeta.
    destruct (select_existing_failure tv_ip image_url remote source_name false
                (checked tv_ip st) Hall Hsel) as [Hr Hstore].
    cbn zeta in Hr, Hstore. rewrite Hr. fold stale in Hstore |- *.
    rewrite run_upload_path. cbn zeta. fold prepared.
    assert (Hcount : count is_upload (trace stale) = count is_upload (trace st)).
    { subst stale. rewrite emits_count, checked_count; [done..|].
      by apply emits_select_existing. }
    assert (Hens : ∀ st', count is_upload
               (trace (ensure_image_data args image_data file_type source_name image_url st').2)
               = count is_upload (trace st')).
    { intros st'. apply emits_count. by apply emits_ensure_image_data. }
    destruct prepared as [[d|] [ft|]] eqn:Hp; destruct Hprep as [?|?]; try done; run;
      rewrite ensure_image_data_files, Hstore, checked_files;
      (split; [done|]);
      rewrite count_app, count_singleton, Hens, Hcount; cbn; lia. }
  destruct Hfiles as [Hfiles Hcount]. split; [done|]. split; [|split; [done|]].
  - intros entry. rewrite Hfiles, list_elem_of_filter. tauto.
  - intros (entry & Hin & Hkey) Heq. rewrite Hfiles in Heq.
    assert (Hin' : entry ∈ filter (λ entry, Entry.key entry
              ≠ (image_url, source_name, device_scope args tv_ip)) (uploaded_files st))
      by (by rewrite Heq).
    apply list_elem_of_filter in Hin'. tauto.
Qed.


(** *** What [process_tv] does to the store *)

Lemma upload_and_record_store tv_ip d ft image_url source_name st :
  let final := (upload_and_record args upload_list_path tv_ip d ft image_url source_name st).2 in
  uploaded_files final = uploaded_files st
  ∨ ∃ id w, (art_upload tv_ip d ft w).1 = UploadReturned (Some id)
            ∧ uploaded_files final
              = uploaded_files st
                ++ [Entry.mk image_url (Some id) (device_scope args tv_ip) source_name].
Proof.
  intros final. subst final.
  destruct (run_upload_and_record tv_ip d ft image_url source_name st) as [Hout _].
  cbn zeta in Hout. rewrite Hout.
  destruct (art_upload tv_ip d ft (world st)).1 as [[id|]|] eqn:Hup; [|by left..].
  destruct (art_select_image _ _ _).1; [|by left..].
  right. by exists id, (world st).
Qed.

Lemma upload_path_store tv_ip image_data file_type image_url remote_filename source_name st :
  let final := (upload_path args upload_list_path tv_ip image_data file_type image_url
                            remote_filename source_name true st).2 in
  let base := if bool_decide (remote_filename ≠ None)
              then filter (λ entry, Entry.key entry
                             ≠ (image_url, source_name, device_scope args tv_ip))
                          (uploaded_files st)
              else uploaded_files st in
  uploaded_files final = uploaded_files st
  ∨ uploaded_files final = base
  ∨ ∃ id d ft w, (art_upload tv_ip d ft w).1 = UploadReturned (Some id)
                 ∧ uploaded_files final
                   = base ++ [Entry.mk image_url (Some id) (device_scope args tv_ip) source_name].
Proof.
  intros final base. subst final. rewrite run_upload_path. cbn zeta.
  pose proof (ensure_image_data_files image_data file_type source_name image_url st) as Hens.
  destruct (ensure_image_data args image_data file_type source_name image_url st)
    as [[[d|] [ft|]] st2]; cbn [fst snd] in *; try (left; by rewrite <- Hens).
  set (st' := ((if bool_decide (remote_filename ≠ None)
                then remove_uploaded_entry args upload_list_path image_url source_name tv_ip
                else mret tt) st2).2).
  assert (Hbase : uploaded_files st' = base).
  { subst st' base. destruct (bool_decide (remote_filename ≠ None)).
    - by rewrite remove_uploaded_entry_files, Hens.
    - done. }
  destruct (upload_and_record_store tv_ip d ft image_url source_name st')
    as [Heq|(id & w & Hup & Heq)]; cbn zeta in Heq; rewrite Hbase in Heq.
  - right. by left.
  - right. right. by exists id, d, ft, w.
Qed.

(** The four things [process_tv] can do to the store: nothing; drop the
    records of its key; drop them and append a new record for the key; or,
    only when it was called without a remote file name, append a new record
    and drop nothing. *)
Lemma process_tv_store tv_ip image_data file_type image_url remote_filename source_name st :
  let final := (process_tv args upload_list_path tv_ip image_data file_type image_url
                           remote_filename source_name st).2 in
  let k := (image_url, source_name, device_scope args tv_ip) in
  let others := filter (λ entry, Entry.key entry ≠ k) (uploaded_files st) in
  uploaded_files final = uploaded_files st
  ∨ uploaded_files final = others
  ∨ ∃ id d ft w, (art_upload tv_ip d ft w).1 = UploadReturned (Some id)
       ∧ (uploaded_files final
            = others ++ [Entry.mk image_url (Some id) (device_scope args tv_ip) source_name]
          ∨ remote_filename = None
            ∧ uploaded_files final
              = uploaded_files st
                ++ [Entry.mk image_url (Some id) (device_scope args tv_ip) source_name]).
Proof.
  intros final k others. subst final.
  destruct (art_supported tv_ip (world st)).1 eqn:Hsup;
    [|left; by rewrite run_process_tv_unsupported].
  rewrite run_process_tv_supported by done. cbn zeta.
  destruct remote_filename as [remote|].
  - destruct (Args.upload_all args) eqn:Hall.
    + rewrite select_existing_skip by (by right). cbn [fst snd].
      rewrite bool_decide_eq_false_2 by done. cbn [orb].
      destruct (upload_path_store tv_ip image_data file_type image_url (Some remote)
                  source_name (checked tv_ip st)) as [Heq|[Heq|(id & d & ft & w & Hup & Heq)]];
        cbn zeta in Heq; rewrite ?bool_decide_eq_true_2 in Heq by done;
        rewrite ?checked_files in Heq.
      * by left.
      * right. by left.
      * right. right. exists id, d, ft, w. split; [done|]. by left.
    + destruct (decide ((art_select_image tv_ip remote (world (checked tv_ip st))).1
                        = SelectOk)) as [Hsel|Hsel].
      * rewrite select_existing_ok by done. cbn [fst snd]. by left.
      * destruct (select_existing_failure tv_ip image_url remote source_name
                    (bool_decide (Some remote = None) || false) (checked tv_ip st) Hall Hsel)
          as [Hr Hstore].
        cbn zeta in Hr, Hstore. rewrite Hr. rewrite checked_files in Hstore.
        set (stale := (select_existing _ _ _ _ _ _ _ _).2) in *.
        destruct (upload_path_store tv_ip image_data file_type image_url None
                    source_name stale) as [Heq|[Heq|(id & d & ft & w & Hup & Heq)]];
          cbn zeta in Heq; rewrite ?bool_decide_eq_false_2 in Heq by (intros H; by apply H);
          rewrite Hstore in Heq.
        -- right. by left.
        -- right. by left.
        -- right. right. exists id, d, ft, w. split; [done|]. by left.
  - rewrite select_existing_skip by (by left). cbn [fst snd].
    rewrite bool_decide_eq_true_2 by done. cbn [orb].
    destruct (upload_path_store tv_ip image_data file_type image_url None
                source_name (checked tv_ip st)) as [Heq|[Heq|(id & d & ft & w & Hup & Heq)]];
      cbn zeta in Heq; rewrite ?bool_decide_eq_false_2 in Heq by (intros H; by apply H);
      rewrite ?checked_files in Heq.
    + by left.
    + by left.
    + right. right. exists id, d, ft, w. split; [done|]. by right.
Qed.

(** C6 (as amended). The [try] block of lines 165-184 writes a record only
    after the upload has returned an artifact id and the select of that id
    has succeeded; the record carries the id as returned.  An upload that
    raises, or returns [None], leaves the store as it was: an error is
    logged, nothing is selected, nothing is written to the file.  So every
    record that a call of [process_tv] adds to the store holds an id that
    an upload to its television has returned. *)
Theorem upload_and_record_outcome tv_ip image_data file_type image_url source_name st :
  let up := art_upload tv_ip image_data file_type (world st) in
  let result := (upload_and_record args upload_list_path tv_ip image_data file_type
                                   image_url source_name st).2 in
  uploaded_files result
  = match up.1 with
    | UploadReturned (Some remote_filename) =>
        match (art_select_image tv_ip remote_filename up.2).1 with
        | SelectOk =>
            uploaded_files st
            ++ [Entry.mk image_url (Some remote_filename) (device_scope args tv_ip) source_name]
        | _ => uploaded_files st
        end
    | _ => uploaded_files st
    end
  ∧ match up.1 with
    | UploadReturned (Some _) => True
    | _ =>
        result
        = mkState up.2 (uploaded_files st)
            (trace st ++ [Log INFO ("Uploading image to TV at " +:+ tv_ip);
                          ArtUpload tv_ip image_data file_type;
                          Log ERROR ("There was an error uploading the image to TV at "
                                     +:+ tv_ip)])
    end
  ∧ ∀ data ft remote_filename st',
      let final := uploaded_files
                     (process_tv args upload_list_path tv_ip data ft image_url
                                 remote_filename source_name st').2 in
      ∀ entry, entry ∈ final → entry ∉ uploaded_files st' →
        ∃ id d ft' w,
          (art_upload tv_ip d ft' w).1 = UploadReturned (Some id)
          ∧ entry = Entry.mk image_url (Some id) (device_scope args tv_ip) source_name.
Proof.
  intros up result.
  destruct (run_upload_and_record tv_ip image_data file_type image_url source_name st)
    as [Hfiles Hstate].
  split; [exact Hfiles|]. split; [exact Hstate|].
  intros data ft remote_filename st' final entry Hin Hnew. subst final.
  destruct (process_tv_store tv_ip data ft image_url remote_filename source_name st')
    as [Heq|[Heq|(id & d & ft' & w & Hup & [Heq|[_ Heq]])]];
    cbn zeta in Heq; rewrite Heq in Hin.
  - done.
  - apply list_elem_of_filter in Hin as [_ Hin]. done.
  - apply elem_of_app in Hin as [Hin|Hin].
    + apply list_elem_of_filter in Hin as [_ Hin]. done.
    + apply list_elem_of_singleton in Hin. by exists id, d, ft', w.
  - apply elem_of_app in Hin as [Hin|Hin]; [done|].
    apply list_elem_of_singleton in Hin. by exists id, d, ft', w.
Qed.

Lemma run_get_remote_filename image_url source_name tv_ip st :
  get_remote_filename args image_url source_name tv_ip st
  = (store_find (uploaded_files st) image_url source_name (device_scope args tv_ip), st).
Proof. reflexivity. Qed.

(** Every record that [process_tv] adds or drops has the key of the call. *)
Lemma process_tv_touches
    tv_ip image_data file_type image_url remote_filename source_name st :
  let k := (image_url, source_name, device_scope args tv_ip) in
  let final := uploaded_files
                 (process_tv args upload_list_path tv_ip image_data file_type image_url
                             remote_filename source_name st).2 in
  (∀ entry, entry ∈ final → entry ∉ uploaded_files st → Entry.key entry = k)
  ∧ (∀ entry, entry ∈ uploaded_files st → entry ∉ final → Entry.key entry = k).
Proof.
  intros k final.
  assert (Hothers : ∀ entry,
    entry ∈ filter (λ entry, Entry.key entry ≠ k) (uploaded_files st)
    ↔ Entry.key entry ≠ k ∧ entry ∈ uploaded_files st)
    by (intros; by rewrite list_elem_of_filter).
  destruct (process_tv_store tv_ip image_data file_type image_url remote_filename
              source_name st) as [Heq|[Heq|(id & d & ft & w & _ & [Heq|[_ Heq]])]];
    cbn zeta in Heq; fold k in Heq; subst final; rewrite Heq; split; intros entry;
    rewrite ?elem_of_app, ?list_elem_of_singleton, ?Hothers;
    destruct (decide (Entry.key entry = k)); try tauto;
    intros [?| ->]; tauto || done.
Qed.

(** C9. The scope of a record is [None] when at most one address is
    configured and the address of the television otherwise, also with
    [--same-image].  The lookup, [remove_uploaded_entry] and the insert of
    [process_tv] use that one scope: the lookup reads the records of the
    key (image url, source name, scope), the removal drops exactly these,
    and every record that [process_tv] adds or drops has this key. *)
Theorem device_scope_keys
    tv_ip image_data file_type image_url remote_filename source_name st :
  let k := (image_url, source_name, device_scope args tv_ip) in
  let final := uploaded_files
                 (process_tv args upload_list_path tv_ip image_data file_type image_url
                             remote_filename source_name st).2 in
  device_scope args tv_ip
  = (if bool_decide (length (tvip args) ≤ 1) then None else Some tv_ip)
  ∧ (get_remote_filename args image_url source_name tv_ip st).1
    = store_find (uploaded_files st) image_url source_name (device_scope args tv_ip)
  ∧ uploaded_files
      (remove_uploaded_entry args upload_list_path image_url source_name tv_ip st).2
    = filter (λ entry, Entry.key entry ≠ k) (uploaded_files st)
  ∧ (∀ entry, entry ∈ final → entry ∉ uploaded_files st → Entry.key entry = k)
  ∧ (∀ entry, entry ∈ uploaded_files st → entry ∉ final → Entry.key entry = k).
Proof.
  intros k final. split; [|split; [|split]].
  - unfold device_scope. repeat case_bool_decide; done || lia.
  - by rewrite run_get_remote_filename.
  - apply remove_uploaded_entry_files.
  - apply process_tv_touches.
Qed.

(** ** Reuse of a recorded picture *)

Lemma reuses_only_refl st : reuses_only st st.
Proof. split; [done|]. exists []. by rewrite app_nil_r. Qed.

Lemma reuses_only_trans st1 st2 st3 :
  reuses_only st1 st2 → reuses_only st2 st3 → reuses_only st1 st3.
Proof.
  intros [Hf1 (evs1 & Ht1 & F1)] [Hf2 (evs2 & Ht2 & F2)]. split; [congruence|].
  exists (evs1 ++ evs2). rewrite Ht2, Ht1, (assoc_L (++)). split; [done|].
  by apply Forall_app.
Qed.

Lemma for_each_invariant {A} (I : State W → Prop) (l : list A) (body : A → M W unit) :
  (∀ x st, x ∈ l → I st → I (body x st).2) →
  ∀ st, I st → I (for_each l body st).2.
Proof.
  induction l as [|x l IH]; intros Hbody st Hst; [done|].
  cbn [for_each]. rewrite run_bind. apply IH.
  - intros y st' Hy. apply Hbody. by right.
  - apply Hbody; [by left|done].
Qed.

Lemma process_tv_select_ok tv_ip image_data file_type image_url remote source_name st :
  Args.upload_all args = false →
  ((art_supported tv_ip (world st)).1 = true →
   (art_select_image tv_ip remote (world (checked tv_ip st))).1 = SelectOk) →
  reuses_only st (process_tv args upload_list_path tv_ip image_data file_type image_url
                             (Some remote) source_name st).2.
Proof.
  intros Hall Hsel. destruct (art_supported tv_ip (world st)).1 eqn:Hsup.
  - rewrite run_process_tv_supported by done. cbn zeta.
    rewrite select_existing_ok by auto. cbn [fst snd]. split; [done|].
    unfold checked. run. rewrite <- (assoc_L (++)). eexists. split; [done|].
    repeat constructor.
  - rewrite run_process_tv_unsupported by done. cbn [snd]. split; [done|].
    eexists. split; [done|]. repeat constructor.
Qed.

Lemma run_choose_source st :
  choose_source args st
  = let i := random_choice (length (sources args)) (world st) in
    let selected_source :=
      default bing_wallpapers (sources args !! (i.1 mod length (sources args))) in
    (selected_source,
     mkState i.2 (uploaded_files st)
             (trace st ++ [RandomChoice;
                           Log INFO ("Selected source: " +:+ __name__ selected_source)])).
Proof. unfold choose_source. run. by rewrite <- (assoc_L (++)). Qed.

Lemma choose_source_elem_of st :
  sources args ≠ [] → (choose_source args st).1 ∈ sources args.
Proof.
  intros Hne. rewrite run_choose_source. cbn zeta. cbn [fst].
  set (n := length (sources args)).
  assert (0 < n) by (subst n; destruct (sources args); [done|cbn; lia]).
  destruct (lookup_lt_is_Some_2 (sources args)
              ((random_choice n (world st)).1 mod n)) as [s Hs].
  { apply Nat.mod_upper_bound. lia. }
  rewrite Hs. cbn. by eapply list_elem_of_lookup_2.
Qed.

(** With a record at hand [get_image_for_tv] asks the source for the url
    only: lines 193-194. *)
Lemma get_image_for_tv_found tv_ip st :
  let chosen := choose_source args st in
  let resolved := call (GetImageUrl chosen.1) (get_image_url chosen.1) chosen.2 in
  let remote := store_find (uploaded_files st) resolved.1 (Some (__name__ chosen.1))
                           (device_scope args tv_ip) in
  truthy remote = true →
  get_image_for_tv args tv_ip st
  = ((None, None, resolved.1, remote, Some (__name__ chosen.1)), resolved.2).
Proof.
  intros chosen resolved remote Hremote. unfold get_image_for_tv.
  rewrite run_bind. fold chosen. rewrite run_bind. fold resolved.
  rewrite run_bind, run_get_remote_filename. cbn [fst snd].
  replace (uploaded_files resolved.2) with (uploaded_files st)
    by (subst resolved chosen; by rewrite run_choose_source).
  fold remote. by rewrite Hremote.
Qed.

Lemma choose_and_resolve_idle st :
  let chosen := choose_source args st in
  let resolved := call (GetImageUrl chosen.1) (get_image_url chosen.1) chosen.2 in
  reuses_only st resolved.2.
Proof.
  intros chosen resolved. subst resolved chosen. rewrite run_choose_source. cbn zeta.
  run. split; [done|]. rewrite <- (assoc_L (++)). eexists. split; [done|].
  repeat constructor.
Qed.

Lemma sync_tv_reuse tv_ip st :
  Args.upload_all args = false →
  let chosen := choose_source args st in
  let resolved := call (GetImageUrl chosen.1) (get_image_url chosen.1) chosen.2 in
  let remote := store_find (uploaded_files st) resolved.1 (Some (__name__ chosen.1))
                           (device_scope args tv_ip) in
  truthy remote = true →
  (∀ r, remote = Some r →
        (art_supported tv_ip (world resolved.2)).1 = true →
        (art_select_image tv_ip r (world (checked tv_ip resolved.2))).1 = SelectOk) →
  reuses_only st (sync_tv args upload_list_path tv_ip st).2.
Proof.
  intros Hall chosen resolved remote Hremote Hsel. unfold sync_tv.
  rewrite run_bind, get_image_for_tv_found by done. cbn [fst snd].
  fold chosen. fold resolved. fold remote.
  destruct remote as [r|] eqn:Hr; [|done].
  eapply reuses_only_trans; [apply choose_and_resolve_idle|].
  apply process_tv_select_ok; auto.
Qed.

(** *** The lookups of the same-image branch, lines 229-234 *)

Lemma run_lookup_targets image_url source_name l remote_filenames upload_targets st :
  let found tv_ip := store_find (uploaded_files st) image_url (Some source_name)
                                (device_scope args tv_ip) in
  let r := lookup_targets args image_url source_name l remote_filenames upload_targets st in
  r.2 = st
  ∧ r.1.2 = upload_targets ++ filter (λ tv_ip, truthy (found tv_ip) = false) l
  ∧ ∀ tv_ip, r.1.1 !! tv_ip
             = if decide (tv_ip ∈ l ∧ truthy (found tv_ip) = true)
               then found tv_ip else remote_filenames !! tv_ip.
Proof.
  intros found.
  assert (Hfound : ∀ tv_ip, store_find (uploaded_files st) image_url (Some source_name)
                              (device_scope args tv_ip) = found tv_ip) by done.
  clearbody found. revert remote_filenames upload_targets.
  induction l as [|x l IH]; intros remote_filenames upload_targets r; subst r.
  { cbn [lookup_targets]. rewrite run_ret, filter_nil, app_nil_r. cbn [fst snd].
    split; [done|]. split; [done|]. intros tv_ip.
    case_decide as H; [|done]. destruct H as [H _]. by apply not_elem_of_nil in H. }
  cbn [lookup_targets]. rewrite run_bind, run_get_remote_filename. cbn [fst snd].
  rewrite Hfound.
  assert (Hstep : ∀ rf ut,
    truthy (found x) = false →
    let r := lookup_targets args image_url source_name l rf (ut ++ [x]) st in
    r.2 = st
    ∧ r.1.2 = ut ++ filter (λ tv_ip, truthy (found tv_ip) = false) (x :: l)
    ∧ ∀ tv_ip, r.1.1 !! tv_ip
               = if decide (tv_ip ∈ x :: l ∧ truthy (found tv_ip) = true)
                 then found tv_ip else rf !! tv_ip).
  { intros rf ut Ht r. destruct (IH rf (ut ++ [x])) as (H1 & H2 & H3).
    split; [done|]. split.
    - subst r. rewrite H2, filter_cons_True by done. by rewrite <- (assoc_L (++)).
    - intros tv_ip. subst r. rewrite H3.
      repeat case_decide; try done; exfalso;
        rewrite elem_of_cons in *; intuition congruence. }
  destruct (found x) as [rx|] eqn:Hx; [destruct (truthy (Some rx)) eqn:Ht|].
  - destruct (IH (<[x:=rx]> remote_filenames) upload_targets) as (H1 & H2 & H3).
    split; [done|]. split.
    + rewrite H2. rewrite filter_cons_False; [done|].
      rewrite Hx. congruence.
    + intros tv_ip. rewrite H3. destruct (decide (x = tv_ip)) as [<-|Hne].
      * rewrite lookup_insert_eq, Hx.
        rewrite (decide_True (P := x ∈ x :: l ∧ _)) by (split; [by left|done]).
        by case_decide.
      * rewrite lookup_insert_ne by done.
        repeat case_decide; try done; exfalso;
          rewrite elem_of_cons in *; intuition congruence.
  - by apply Hstep.
  - by apply Hstep.
Qed.

(** *** The two loops *)

Lemma for_each_ext {A} (l : list A) (body body' : A → M W unit) st :
  (∀ x st', x ∈ l → body x st' = body' x st') →
  for_each l body st = for_each l body' st.
Proof.
  revert st. induction l as [|x l IH]; intros st Hbody; [done|].
  cbn [for_each]. rewrite !run_bind, Hbody by (by left).
  apply IH. intros y st' Hy. apply Hbody. by right.
Qed.

(** The same-image branch, with its lookups written as a filter: the
    televisions to upload to are those without a usable record, and a
    television is processed with its record when it has one. *)
Lemma run_same_image_loop st :
  same_image_loop args upload_list_path st
  = let chosen := choose_source args st in
    let resolved := call (GetImageUrl chosen.1) (get_image_url chosen.1) chosen.2 in
    if negb (truthy resolved.1) then
      (SysExit 1, (log ERROR "No image URL available for same-image mode." resolved.2).2)
    else
      let found tv_ip := store_find (uploaded_files st) resolved.1 (Some (__name__ chosen.1))
                                    (device_scope args tv_ip) in
      let upload_targets := filter (λ tv_ip, truthy (found tv_ip) = false) (tvip args) in
      let fetched := fetch_shared args chosen.1 resolved.1 upload_targets resolved.2 in
      match fetched.1 with
      | None => (SysExit 1, fetched.2)
      | Some (image_data, file_type) =>
          (Completed,
           (for_each (tvip args) (λ tv_ip,
              process_tv args upload_list_path tv_ip image_data file_type resolved.1
                         (if truthy (found tv_ip) then found tv_ip else None)
                         (Some (__name__ chosen.1)))
              fetched.2).2)
      end.
Proof.
  unfold same_image_loop. rewrite run_bind. cbn zeta.
  set (chosen := choose_source args st). rewrite run_bind.
  set (resolved := call (GetImageUrl chosen.1) (get_image_url chosen.1) chosen.2).
  destruct (truthy resolved.1); cbn [negb]; [|by run].
  rewrite run_bind.
  assert (Hfiles : uploaded_files resolved.2 = uploaded_files st)
    by (subst resolved chosen; by rewrite run_choose_source).
  destruct (run_lookup_targets resolved.1 (__name__ chosen.1) (tvip args) ∅ [] resolved.2)
    as (H1 & H2 & H3).
  cbn zeta in H1, H2, H3. rewrite Hfiles in H2, H3. cbn [app] in H2.
  destruct (lookup_targets args resolved.1 (__name__ chosen.1) (tvip args) ∅ [] resolved.2)
    as [[remote_filenames upload_targets] st']. cbn [fst snd] in *. subst st' upload_targets.
  rewrite run_bind.
  destruct (fetch_shared _ _ _ _ _).1 as [[image_data file_type]|]; [|done].
  rewrite run_bind, run_ret. f_equal. f_equal.
  apply for_each_ext. intros tv_ip st' Hin. rewrite H3, lookup_empty.
  case_decide as Hd.
  - destruct Hd as [_ ->]. done.
  - destruct (truthy _) eqn:Ht; [|done]. destruct Hd. done.
Qed.

Lemma filter_none {A} (P : A → Prop) `{∀ x, Decision (P x)} (l : list A) :
  (∀ x, x ∈ l → ¬ P x) → filter P l = [].
Proof.
  induction l as [|x l IH]; intros Hl; [done|].
  rewrite filter_cons_False by (apply Hl; by left).
  apply IH. intros y Hy. apply Hl. by right.
Qed.

Lemma run_device_loops st :
  device_loops args upload_list_path st
  = if bool_decide (tvip args = []) then
      (SysExit 1, (log ERROR "No TV IP addresses specified. Please use --tvip" st).2)
    else if bool_decide (1 < length (tvip args)) && Args.same_image args then
      same_image_loop args upload_list_path st
    else (Completed, (for_each (tvip args) (sync_tv args upload_list_path) st).2).
Proof.
  unfold device_loops. destruct (tvip args).
  - rewrite bool_decide_eq_true_2 by done. by run.
  - rewrite (bool_decide_eq_false_2 (_ :: _ = [])) by done.
    destruct (_ && _); [done|]. by run.
Qed.

Lemma reuses_only_log level msg st : reuses_only st (log level msg st).2.
Proof.
  rewrite run_log. split; [done|]. eexists. split; [done|]. repeat constructor.
Qed.

(** A run in which every television has a usable record and accepts its
    select: nothing is fetched, prepared, uploaded or written. *)
Lemma device_loops_reuse st :
  Args.upload_all args = false →
  sources args ≠ [] →
  (∀ tv_ip r w, (art_select_image tv_ip r w).1 = SelectOk) →
  (∀ s w tv_ip, s ∈ sources args → tv_ip ∈ tvip args →
     truthy (store_find (uploaded_files st) (get_image_url s w).1 (Some (__name__ s))
                        (device_scope args tv_ip)) = true) →
  reuses_only st (device_loops args upload_list_path st).2.
Proof.
  intros Hall Hsrc Hsel Hrec. rewrite run_device_loops.
  case_bool_decide; [apply reuses_only_log|].
  destruct (bool_decide (1 < length (tvip args)) && Args.same_image args).
  - rewrite run_same_image_loop. cbn zeta.
    set (chosen := choose_source args st).
    set (resolved := call (GetImageUrl chosen.1) (get_image_url chosen.1) chosen.2).
    assert (Hres : reuses_only st resolved.2) by apply choose_and_resolve_idle.
    destruct (truthy resolved.1); cbn [negb snd];
      [|eapply reuses_only_trans; [done|apply reuses_only_log]].
    assert (Hin : chosen.1 ∈ sources args) by by apply choose_source_elem_of.
    assert (Hfound : ∀ tv_ip, tv_ip ∈ tvip args →
      truthy (store_find (uploaded_files st) resolved.1 (Some (__name__ chosen.1))
                         (device_scope args tv_ip)) = true).
    { intros tv_ip Htv. subst resolved. rewrite run_call. cbn [fst]. by apply Hrec. }
    rewrite filter_none by (intros tv_ip Htv; by rewrite Hfound).
    cbn [fetch_shared]. rewrite run_ret. cbn [fst snd].
    apply (for_each_invariant (reuses_only st)); [|done].
    intros tv_ip st' Htv Hst'. pose proof (Hfound tv_ip Htv) as Ht. rewrite Ht.
    destruct (store_find _ _ _ _) as [r|] eqn:Hr; [|done].
    eapply reuses_only_trans; [done|]. apply process_tv_select_ok; auto.
  - cbn [snd].
    apply (for_each_invariant (reuses_only st)); [|apply reuses_only_refl].
    intros tv_ip st' Htv Hst'. eapply reuses_only_trans; [done|].
    apply sync_tv_reuse; [done| |by auto].
    destruct Hst' as [-> _]. rewrite run_call. cbn [fst].
    apply Hrec; [|done]. by apply choose_source_elem_of.
Qed.

(** C2. With a record for the image and the television, no forced
    re-upload, and a television that accepts the select of the recorded
    artifact id, processing the television neither fetches nor prepares nor
    uploads an image, and the store stays the same list.  This holds for
    one call of [process_tv] and for a whole run over televisions that all
    have their record: such a run uploads nothing. *)
Theorem recorded_image_is_reselected :
  Args.upload_all args = false →
  (∀ tv_ip image_data file_type image_url remote source_name st,
     ((art_supported tv_ip (world st)).1 = true →
      (art_select_image tv_ip remote (world (checked tv_ip st))).1 = SelectOk) →
     let final := (process_tv args upload_list_path tv_ip image_data file_type image_url
                              (Some remote) source_name st).2 in
     uploaded_files final = uploaded_files st
     ∧ count is_fetch (trace final) = count is_fetch (trace st)
     ∧ count is_prepare (trace final) = count is_prepare (trace st)
     ∧ count is_upload (trace final) = count is_upload (trace st))
  ∧ (∀ st,
       sources args ≠ [] →
       (∀ tv_ip r w, (art_select_image tv_ip r w).1 = SelectOk) →
       (∀ s w tv_ip, s ∈ sources args → tv_ip ∈ tvip args →
          truthy (store_find (uploaded_files st) (get_image_url s w).1 (Some (__name__ s))
                             (device_scope args tv_ip)) = true) →
       let final := (device_loops args upload_list_path st).2 in
       uploaded_files final = uploaded_files st
       ∧ count is_fetch (trace final) = count is_fetch (trace st)
       ∧ count is_prepare (trace final) = count is_prepare (trace st)
       ∧ count is_upload (trace final) = count is_upload (trace st)).
Proof.
  intros Hall.
  assert (Hcounts : ∀ st st', reuses_only st st' →
    uploaded_files st' = uploaded_files st
    ∧ count is_fetch (trace st') = count is_fetch (trace st)
    ∧ count is_prepare (trace st') = count is_prepare (trace st)
    ∧ count is_upload (trace st') = count is_upload (trace st)).
  { intros st st' [Hf (evs & -> & Hidle)]. split; [done|].
    rewrite !count_app.
    assert (Hzero : ∀ kind, (∀ e, idle e → kind e = false) → count kind evs = 0).
    { intros kind Hk. induction Hidle as [|e evs He _ IH]; [done|].
      change (e :: evs) with ([e] ++ evs).
      rewrite count_app, count_singleton, Hk, IH by done. done. }
    rewrite !Hzero; [lia|by intros e (? & ? & ? & ?)..]. }
  split.
  - intros. apply Hcounts. by apply process_tv_select_ok.
  - intros. apply Hcounts. by apply device_loops_reuse.
Qed.

(** ** One fetch for all televisions *)

(** Lines 236-249 with at least one television to upload to and a source
    that delivers: one fetch, one resize, and the buffer for the run. *)
Lemma run_fetch_shared selected_source image_url tv_ip upload_targets st d ft :
  (get_image selected_source image_url (world st)).1 = (Some d, ft) →
  let fetched := fetch_shared args selected_source image_url (tv_ip :: upload_targets) st in
  let buffer := (resize_and_crop_image d
                   (get_image selected_source image_url (world st)).2).1 in
  fetched.1 = Some (Some buffer, ft)
  ∧ uploaded_files fetched.2 = uploaded_files st
  ∧ ∃ evs, trace fetched.2 = trace st ++ evs
           ∧ count is_fetch evs = 1 ∧ count is_prepare evs = 1
           ∧ Forall (λ e, is_upload e = false) evs.
Proof.
  intros Hget fetched buffer. subst fetched buffer.
  unfold fetch_shared, prepare, save_debug_image. rewrite run_bind, run_call, Hget.
  cbn [fst snd]. destruct (Args.debugimage args); run.
  - split; [done|]. split; [done|]. rewrite <- !(assoc_L (++)). eexists. split; [done|].
    cbn [app]. repeat (rewrite (count_app _ [_]), count_singleton).
    split; [done|]. split; [done|]. repeat constructor.
  - split; [done|]. split; [done|]. rewrite <- !(assoc_L (++)). eexists. split; [done|].
    cbn [app]. repeat (rewrite (count_app _ [_]), count_singleton).
    split; [done|]. split; [done|]. repeat constructor.
Qed.

(** Called with the prepared buffer, [process_tv] neither fetches nor
    prepares, and what it uploads is that buffer. *)
Lemma emits_process_tv_given tv_ip buffer ft image_url remote_filename source_name :
  emits (process_tv args upload_list_path tv_ip (Some buffer) (Some ft) image_url
                    remote_filename source_name)
        (λ e, is_fetch e = false ∧ is_prepare e = false
              ∧ (is_upload e = true → e = ArtUpload tv_ip buffer ft)).
Proof.
  assert (Hpath : ∀ remote needs_upload,
    emits (upload_path args upload_list_path tv_ip (Some buffer) (Some ft) image_url
                       remote source_name needs_upload)
          (λ e, is_fetch e = false ∧ is_prepare e = false
                ∧ (is_upload e = true → e = ArtUpload tv_ip buffer ft))).
  { intros remote needs_upload. unfold upload_path.
    destruct needs_upload; cbn [negb]; [|apply emits_ret].
    apply (emits_bind_pure _ _ (Some buffer, Some ft)); [done|].
    unfold remove_uploaded_entry, json_dump. solve_emits.
    all: apply emits_upload_and_record; intros; done. }
  unfold process_tv, select_existing, remove_uploaded_entry, json_dump.
  repeat first [apply Hpath | emits_step]; done.
Qed.

(** C4 (as amended). In the same-image branch the fetch of lines 236-249
    is lazy and happens at most once: it is skipped when every television
    has a usable record, and it is one call of [get_image] otherwise.
    When some television lacks a record and the source delivers an image
    with its file type, the whole run has exactly one fetch and one
    resize, and every upload of the run sends that one buffer. *)
Theorem shared_image_single_fetch st :
  let chosen := choose_source args st in
  let resolved := call (GetImageUrl chosen.1) (get_image_url chosen.1) chosen.2 in
  let found tv_ip := store_find (uploaded_files st) resolved.1 (Some (__name__ chosen.1))
                                (device_scope args tv_ip) in
  let upload_targets := filter (λ tv_ip, truthy (found tv_ip) = false) (tvip args) in
  let fetched := fetch_shared args chosen.1 resolved.1 upload_targets resolved.2 in
  let run := same_image_loop args upload_list_path st in
  truthy resolved.1 = true →
  (upload_targets = [] → fetched = (Some (None, None), resolved.2))
  ∧ count is_fetch (trace fetched.2) ≤ count is_fetch (trace resolved.2) + 1
  ∧ (upload_targets ≠ [] →
     ∀ d ft, (get_image chosen.1 resolved.1 (world resolved.2)).1 = (Some d, Some ft) →
       let buffer := (resize_and_crop_image d
                        (get_image chosen.1 resolved.1 (world resolved.2)).2).1 in
       run.1 = Completed
       ∧ count is_fetch (trace run.2) = count is_fetch (trace st) + 1
       ∧ count is_prepare (trace run.2) = count is_prepare (trace st) + 1
       ∧ ∃ evs, trace run.2 = trace st ++ evs
                ∧ Forall (λ e, is_upload e = true → ∃ tv_ip, e = ArtUpload tv_ip buffer ft) evs).
Proof.
  intros chosen resolved found upload_targets fetched run Hurl.
  split; [|split].
  - intros Hnil. subst fetched. by rewrite Hnil.
  - subst fetched. destruct upload_targets as [|t ts]; [cbn; lia|].
    unfold fetch_shared, prepare, save_debug_image. rewrite run_bind, run_call.
    destruct (get_image chosen.1 resolved.1 (world resolved.2)).1 as [[d|] ft];
      cbn [fst snd]; destruct (Args.debugimage args); run;
      rewrite !count_app, !count_cons, !count_nil; cbn [is_fetch]; lia.
  - intros Hne d ft Hget buffer.
    assert (Hrun : run = same_image_loop args upload_list_path st) by done.
    rewrite run_same_image_loop in Hrun. cbn zeta in Hrun.
    fold chosen in Hrun. fold resolved in Hrun. rewrite Hurl in Hrun. cbn [negb] in Hrun.
    change (filter _ (tvip args)) with upload_targets in Hrun.
    destruct upload_targets as [|t ts] eqn:Htargets; [done|].
    destruct (run_fetch_shared chosen.1 resolved.1 t ts resolved.2 d (Some ft) Hget)
      as (Hf1 & Hf2 & evs1 & Ht1 & Hc1 & Hc2 & Hup1).
    cbn zeta in Hf1, Hf2, Ht1. fold buffer in Hf1. rewrite Hf1 in Hrun.
    set (body := λ tv_ip, process_tv args upload_list_path tv_ip (Some buffer) (Some ft)
                            resolved.1 (if truthy (found tv_ip) then found tv_ip else None)
                            (Some (__name__ chosen.1))) in Hrun.
    assert (Hloop : emits (for_each (tvip args) body)
              (λ e, is_fetch e = false ∧ is_prepare e = false
                    ∧ (is_upload e = true → ∃ tv_ip, e = ArtUpload tv_ip buffer ft))).
    { apply emits_for_each. intros tv_ip _.
      eapply emits_weaken; [|apply emits_process_tv_given].
      intros e (? & ? & Hup). repeat split; [done..|]. intros He. eauto. }
    destruct (Hloop (fetch_shared args chosen.1 resolved.1 (t :: ts) resolved.2).2)
      as (evs2 & Ht2 & Hall2).
    destruct (choose_and_resolve_idle st) as [_ (evs0 & Ht0 & Hidle0)].
    cbn zeta in Ht0. fold chosen in Ht0. fold resolved in Ht0.
    assert (Htrace : trace run.2 = trace st ++ (evs0 ++ evs1 ++ evs2)).
    { rewrite Hrun. cbn [snd]. etrans; [exact Ht2|].
      rewrite Ht1, Ht0. by rewrite <- !(assoc_L (++)). }
    split; [by rewrite Hrun|].
    rewrite Htrace, !count_app, Hc1, Hc2.
    rewrite !(count_none _ idle evs0) by (done || by intros e (? & ? & ? & ?)).
    rewrite !(count_none _ _ evs2 Hall2) by (by intros e (? & ? & ?)).
    split; [lia|]. split; [lia|].
    eexists. split; [done|]. rewrite !Forall_app. split; [|split].
    + eapply Forall_impl; [exact Hidle0|]. intros e (_ & _ & He & _) Hu. congruence.
    + eapply Forall_impl; [exact Hup1|]. intros e He Hu. congruence.
    + eapply Forall_impl; [exact Hall2|]. by intros e (_ & _ & He).
Qed.

(** ** Which televisions a run processes *)












(** ** One record per key *)

Lemma unique_keys_filter (P : Entry.t → Prop) `{∀ x, Decision (P x)} files :
  unique_keys files → unique_keys (filter P files).
Proof.
  unfold unique_keys. induction files as [|e files IH]; [done|].
  rewrite fmap_cons, NoDup_cons. intros [Hnotin Hnd].
  rewrite filter_cons. case_decide; [|by apply IH].
  rewrite fmap_cons, NoDup_cons. split; [|by apply IH].
  rewrite list_elem_of_fmap. intros (e' & Hk & Hin).
  apply list_elem_of_filter in Hin as [_ Hin].
  apply Hnotin. rewrite list_elem_of_fmap. eauto.
Qed.

Lemma unique_keys_snoc files entry :
  unique_keys files →
  (∀ e, e ∈ files → Entry.key e ≠ Entry.key entry) →
  unique_keys (files ++ [entry]).
Proof.
  unfold unique_keys. intros Hnd Hne. rewrite fmap_app. apply NoDup_app.
  split; [done|]. split; [|apply NoDup_singleton].
  intros k Hk Hk'. apply list_elem_of_fmap in Hk as (e & -> & He).
  apply list_elem_of_singleton in Hk'. by eapply Hne.
Qed.

Lemma usable_ids_filter (P : Entry.t → Prop) `{∀ x, Decision (P x)} files :
  usable_ids files → usable_ids (filter P files).
Proof.
  unfold usable_ids. rewrite !Forall_forall. intros Hids e He.
  apply list_elem_of_filter in He as [_ He]. by apply Hids.
Qed.

(** In a store whose ids are all usable, a lookup without a usable answer
    means that the key has no record. *)
Lemma store_find_falsy files image_url source_name scope :
  usable_ids files →
  truthy (store_find files image_url source_name scope) = false →
  ∀ e, e ∈ files → Entry.key e ≠ (image_url, source_name, scope).
Proof.
  intros Hids Hfalse e He Hk. unfold store_find in Hfalse.
  destruct (last (filter (λ entry, Entry.key entry = (image_url, source_name, scope)) files))
    as [e'|] eqn:Hlast.
  - apply last_Some_elem_of, list_elem_of_filter in Hlast as [_ He'].
    unfold usable_ids in Hids. rewrite Forall_forall in Hids.
    cbn in Hfalse. rewrite (Hids e' He') in Hfalse. done.
  - apply last_None in Hlast.
    by pose proof (filter_nil_not_elem_of _ _ e Hlast Hk).
Qed.

(** [process_tv] keeps the keys unique when it is called with the record
    of its key, or for a key without record; it keeps the ids usable when
    the televisions return usable ids. *)
Lemma process_tv_invariant
    tv_ip image_data file_type image_url remote_filename source_name st :
  (∀ tv d ft w id, (art_upload tv d ft w).1 = UploadReturned (Some id) → id ≠ "") →
  (remote_filename = None →
   ∀ e, e ∈ uploaded_files st →
        Entry.key e ≠ (image_url, source_name, device_scope args tv_ip)) →
  unique_keys (uploaded_files st) → usable_ids (uploaded_files st) →
  let final := uploaded_files
                 (process_tv args upload_list_path tv_ip image_data file_type image_url
                             remote_filename source_name st).2 in
  unique_keys final ∧ usable_ids final.
Proof.
  intros Hup Hnone Huniq Hids final. subst final.
  assert (Hnew : ∀ id d ft w,
    (art_upload tv_ip d ft w).1 = UploadReturned (Some id) →
    usable_ids [Entry.mk image_url (Some id) (device_scope args tv_ip) source_name]).
  { intros id d ft w Hid. apply Forall_singleton. cbn.
    apply bool_decide_eq_true_2. by eapply Hup. }
  destruct (process_tv_store tv_ip image_data file_type image_url remote_filename
              source_name st) as [Heq|[Heq|(id & d & ft & w & Hid & [Heq|[Hrem Heq]])]];
    cbn zeta in Heq; rewrite Heq.
  - done.
  - split; [by apply unique_keys_filter|by apply usable_ids_filter].
  - split.
    + apply unique_keys_snoc; [by apply unique_keys_filter|].
      intros e He. by apply list_elem_of_filter in He as [He _].
    + apply Forall_app. split; [by apply usable_ids_filter|by eapply Hnew].
  - split.
    + apply unique_keys_snoc; [done|]. intros e He. by apply Hnone.
    + apply Forall_app. split; [done|by eapply Hnew].
Qed.

(** Called without image, source and record, [process_tv] cannot upload. *)
Lemma process_tv_nothing tv_ip st :
  uploaded_files (process_tv args upload_list_path tv_ip None None None None None st).2
  = uploaded_files st.
Proof.
  destruct (art_supported tv_ip (world st)).1 eqn:Hsup;
    [|by rewrite run_process_tv_unsupported].
  rewrite run_process_tv_supported by done. cbn zeta.
  rewrite select_existing_skip by (by left). cbn [fst snd].
  rewrite bool_decide_eq_true_2 by done. cbn [orb].
  rewrite run_upload_path. cbn zeta. unfold ensure_image_data. cbn. by run.
Qed.

Lemma prepare_files source_name original_image_data st :
  uploaded_files (prepare args source_name original_image_data st).2 = uploaded_files st.
Proof. unfold prepare, save_debug_image. by destruct (Args.debugimage args); run. Qed.

(** Without a usable record [get_image_for_tv] fetches the image: lines
    196-207. *)
Lemma get_image_for_tv_missing tv_ip st :
  let chosen := choose_source args st in
  let resolved := call (GetImageUrl chosen.1) (get_image_url chosen.1) chosen.2 in
  let remote := store_find (uploaded_files st) resolved.1 (Some (__name__ chosen.1))
                           (device_scope args tv_ip) in
  truthy remote = false →
  get_image_for_tv args tv_ip st
  = let fetched := call (GetImage chosen.1 resolved.1) (get_image chosen.1 resolved.1)
                        resolved.2 in
    match fetched.1.1 with
    | None => ((None, None, None, None, None), fetched.2)
    | Some image_data =>
        let prepared := prepare args (__name__ chosen.1) image_data fetched.2 in
        ((Some prepared.1, fetched.1.2, resolved.1, None, Some (__name__ chosen.1)),
         prepared.2)
    end.
Proof.
  intros chosen resolved remote Hremote. unfold get_image_for_tv.
  rewrite run_bind. fold chosen. rewrite run_bind. fold resolved.
  rewrite run_bind, run_get_remote_filename. cbn [fst snd].
  replace (uploaded_files resolved.2) with (uploaded_files st)
    by (subst resolved chosen; by rewrite run_choose_source).
  fold remote. rewrite Hremote. rewrite run_bind. cbn zeta.
  destruct (call (GetImage chosen.1 resolved.1) (get_image chosen.1 resolved.1) resolved.2)
    as [[[d|] ft] st']; cbn [fst snd]; by run.
Qed.

Lemma sync_tv_invariant tv_ip st :
  (∀ tv d ft w id, (art_upload tv d ft w).1 = UploadReturned (Some id) → id ≠ "") →
  unique_keys (uploaded_files st) ∧ usable_ids (uploaded_files st) →
  unique_keys (uploaded_files (sync_tv args upload_list_path tv_ip st).2)
  ∧ usable_ids (uploaded_files (sync_tv args upload_list_path tv_ip st).2).
Proof.
  intros Hup [Huniq Hids]. unfold sync_tv. rewrite run_bind.
  set (chosen := choose_source args st).
  set (resolved := call (GetImageUrl chosen.1) (get_image_url chosen.1) chosen.2).
  set (remote := store_find (uploaded_files st) resolved.1 (Some (__name__ chosen.1))
                            (device_scope args tv_ip)).
  assert (Hfiles : uploaded_files resolved.2 = uploaded_files st)
    by (subst resolved chosen; by rewrite run_choose_source).
  destruct (truthy remote) eqn:Hremote.
  - rewrite get_image_for_tv_found by done. cbn [fst snd]. fold chosen resolved remote.
    destruct remote as [r|] eqn:Hr; [|done].
    apply process_tv_invariant; rewrite ?Hfiles; done.
  - rewrite get_image_for_tv_missing by done. cbn zeta. fold chosen resolved.
    set (fetched := call (GetImage chosen.1 resolved.1) (get_image chosen.1 resolved.1)
                         resolved.2).
    assert (Hfetched : uploaded_files fetched.2 = uploaded_files st) by done.
    destruct fetched.1.1 as [d|]; cbn [fst snd].
    + apply process_tv_invariant; rewrite ?prepare_files, ?Hfetched; try done.
      intros _. by apply store_find_falsy.
    + rewrite process_tv_nothing, Hfetched. done.
Qed.

(** The same-image loop: the lookups were made before the loop, so the
    addresses have to differ for a television to find the store as its
    lookup saw it. *)
Lemma shared_loop_invariant image_data file_type image_url source_name
    (remote_of : string → option string) (l : list string) st :
  1 < length (tvip args) →
  (∀ tv d ft w id, (art_upload tv d ft w).1 = UploadReturned (Some id) → id ≠ "") →
  NoDup l →
  (∀ tv_ip, tv_ip ∈ l → remote_of tv_ip = None →
     ∀ e, e ∈ uploaded_files st → Entry.key e ≠ (image_url, source_name, Some tv_ip)) →
  unique_keys (uploaded_files st) ∧ usable_ids (uploaded_files st) →
  let final := (for_each l (λ tv_ip,
                  process_tv args upload_list_path tv_ip image_data file_type image_url
                             (remote_of tv_ip) source_name) st).2 in
  unique_keys (uploaded_files final) ∧ usable_ids (uploaded_files final).
Proof.
  intros Hlen Hup. revert st. induction l as [|x l IH]; intros st Hnd Hnone Hinv; [done|].
  apply NoDup_cons in Hnd as [Hx Hnd]. cbn [for_each]. cbn zeta. rewrite run_bind.
  assert (Hscope : ∀ tv_ip, device_scope args tv_ip = Some tv_ip)
    by (intros; unfold device_scope; by rewrite bool_decide_eq_true_2).
  apply IH; [done| |].
  - intros tv_ip Hin Hrem e He Hk.
    destruct (decide (e ∈ uploaded_files st)) as [Hold|Hnew].
    + eapply Hnone; [by right|done|done|done].
    + destruct (process_tv_touches x image_data file_type image_url (remote_of x)
                  source_name st) as [Hadded _]. cbn zeta in Hadded.
      specialize (Hadded e He Hnew). rewrite Hscope, Hk in Hadded.
      inversion Hadded. subst. done.
  - destruct Hinv as [Huniq Hids]. apply process_tv_invariant; try done.
    intros Hrem. rewrite Hscope. apply Hnone; [by left|done].
Qed.

(** The device loops keep the store free of duplicate keys. *)
Lemma device_loops_invariant st :
  (∀ tv d ft w id, (art_upload tv d ft w).1 = UploadReturned (Some id) → id ≠ "") →
  (Args.same_image args = true → NoDup (tvip args)) →
  unique_keys (uploaded_files st) ∧ usable_ids (uploaded_files st) →
  unique_keys (uploaded_files (device_loops args upload_list_path st).2)
  ∧ usable_ids (uploaded_files (device_loops args upload_list_path st).2).
Proof.
  intros Hup Hnd Hinv. rewrite run_device_loops.
  case_bool_decide; [by run|].
  destruct (bool_decide (1 < length (tvip args))) eqn:Hlen; cbn [andb];
    [destruct (Args.same_image args) eqn:Hsame|];
    try (cbn [snd]; apply (for_each_invariant
           (λ st, unique_keys (uploaded_files st) ∧ usable_ids (uploaded_files st)));
         [intros; by apply sync_tv_invariant|done]).
  apply bool_decide_eq_true_1 in Hlen.
  rewrite run_same_image_loop. cbn zeta.
  set (chosen := choose_source args st).
  set (resolved := call (GetImageUrl chosen.1) (get_image_url chosen.1) chosen.2).
  assert (Hfiles : uploaded_files resolved.2 = uploaded_files st)
    by (subst resolved chosen; by rewrite run_choose_source).
  destruct (truthy resolved.1); cbn [negb]; [|by run].
  set (upload_targets := filter _ (tvip args)).
  assert (Hfetched : uploaded_files
            (fetch_shared args chosen.1 resolved.1 upload_targets resolved.2).2
          = uploaded_files st).
  { rewrite <- Hfiles. unfold fetch_shared, prepare, save_debug_image.
    destruct upload_targets; [done|]. rewrite run_bind, run_call. cbn [fst snd].
    destruct (get_image chosen.1 resolved.1 (world resolved.2)).1 as [[d|] ft];
      cbn [fst snd]; destruct (Args.debugimage args); by run. }
  destruct (fetch_shared args chosen.1 resolved.1 upload_targets resolved.2).1
    as [[image_data file_type]|]; cbn [snd]; [|by rewrite Hfetched].
  apply (shared_loop_invariant image_data file_type resolved.1 (Some (__name__ chosen.1))
           (λ tv_ip, if truthy (store_find (uploaded_files st) resolved.1
                                  (Some (__name__ chosen.1)) (device_scope args tv_ip))
                     then store_find (uploaded_files st) resolved.1
                            (Some (__name__ chosen.1)) (device_scope args tv_ip)
                     else None));
    rewrite ?Hfetched; auto.
  intros tv_ip Hin Hrem.
  replace (Some tv_ip) with (device_scope args tv_ip)
    by (unfold device_scope; by rewrite bool_decide_eq_true_2).
  apply store_find_falsy; [by destruct Hinv|].
  destruct (truthy (store_find _ _ _ _)) eqn:Ht; [|done].
  rewrite Hrem in Ht. done.
Qed.

(** * Further properties *)

(** ** [remove_uploaded_entry], lines 83-96 *)

Lemma filter_length_eq {A} (P : A → Prop) `{∀ x, Decision (P x)} (l : list A) :
  length (filter P l) = length l → filter P l = l.
Proof.
  induction l as [|x l IH]; [done|]. rewrite filter_cons. case_decide.
  - cbn. intros Hlen. f_equal. apply IH. lia.
  - intros Hlen. pose proof (length_filter P l). cbn in Hlen. lia.
Qed.

Lemma filter_length_lt_Exists {A} (P : A → Prop) `{∀ x, Decision (P x)} (l : list A) :
  length (filter P l) ≠ length l ↔ Exists (λ x, ¬ P x) l.
Proof.
  split.
  - intros Hlen. apply not_Forall_Exists; [apply _|]. intros Hall. apply Hlen.
    f_equal. clear Hlen. induction Hall as [|x l Hx _ IH]; [done|].
    by rewrite filter_cons_True, IH.
  - intros Hex Hlen. apply filter_length_eq in Hlen.
    apply Exists_exists in Hex as (x & Hin & Hx). apply Hx.
    rewrite <- Hlen in Hin. by apply list_elem_of_filter in Hin as [? _].
Qed.

(** X1. [remove_uploaded_entry] rewrites the upload list exactly when the
    store holds a record of the key: then it keeps the other records, in
    order, and writes them once.  Without such a record nothing happens at
    all: same store, no write, no log line. *)
Theorem remove_uploaded_entry_writes_iff_dropped image_url source_name tv_ip st :
  let k := (image_url, source_name, device_scope args tv_ip) in
  let others := filter (λ entry, Entry.key entry ≠ k) (uploaded_files st) in
  remove_uploaded_entry args upload_list_path image_url source_name tv_ip st
  = (tt,
     if bool_decide (Exists (λ entry, Entry.key entry = k) (uploaded_files st))
     then mkState (write_json upload_list_path others (world st)).2 others
                  (trace st ++ [JsonDump upload_list_path others])
     else st).
Proof.
  intros k others. unfold remove_uploaded_entry, json_dump. run.
  rewrite filter_not_key. fold k. fold others.
  assert (Hiff : length others ≠ length (uploaded_files st)
                 ↔ Exists (λ entry, Entry.key entry = k) (uploaded_files st)).
  { subst others. rewrite filter_length_lt_Exists, !Exists_exists.
    split; intros (e & He & Hk); exists e; (split; [done|]);
      destruct (decide (Entry.key e = k)); tauto. }
  destruct (decide (Exists (λ entry, Entry.key entry = k) (uploaded_files st))) as [Hex|Hex].
  - rewrite (bool_decide_eq_true_2 (Exists _ _)) by done.
    rewrite (bool_decide_eq_true_2 (length _ ≠ _)) by (by apply Hiff).
    run. by destruct (write_json upload_list_path others (world st)).1.
  - rewrite (bool_decide_eq_false_2 (Exists _ _)) by done.
    rewrite (bool_decide_eq_false_2 (length _ ≠ _)) by (by rewrite Hiff). run.
    replace others with (uploaded_files st); [by destruct st|].
    symmetry. apply filter_length_eq.
    destruct (decide (length others = length (uploaded_files st))) as [|Hne]; [done|].
    by apply Hiff in Hne.
Qed.

(** X2. Removing twice is removing once: after [remove_uploaded_entry] no
    record of the key is left, and a second call changes neither the store
    nor the file nor the trace. *)
Theorem remove_uploaded_entry_idempotent image_url source_name tv_ip st :
  let once := (remove_uploaded_entry args upload_list_path image_url source_name tv_ip st).2 in
  (∀ entry, entry ∈ uploaded_files once →
            Entry.key entry ≠ (image_url, source_name, device_scope args tv_ip))
  ∧ remove_uploaded_entry args upload_list_path image_url source_name tv_ip once = (tt, once).
Proof.
  intros once.
  assert (Hnone : ∀ entry, entry ∈ uploaded_files once →
            Entry.key entry ≠ (image_url, source_name, device_scope args tv_ip)).
  { intros entry. subst once. rewrite remove_uploaded_entry_files, list_elem_of_filter. tauto. }
  split; [done|].
  unfold remove_uploaded_entry, json_dump. run.
  rewrite filter_not_key.
  assert (Hsame : filter (λ entry, Entry.key entry
                   ≠ (image_url, source_name, device_scope args tv_ip))
                  (uploaded_files once) = uploaded_files once).
  { clear -Hnone. induction (uploaded_files once) as [|e l IH]; [done|].
    rewrite filter_cons_True by (apply Hnone; by left).
    f_equal. apply IH. intros e' He'. apply Hnone. by right. }
  rewrite Hsame, bool_decide_eq_false_2 by (intros H; by apply H).
  run. by destruct once.
Qed.

(** ** Forced re-upload: [process_tv] with [--upload-all], lines 135-163 *)

Lemma emits_remove_if (cond : bool) image_url source_name tv_ip (P : Event → Prop) :
  (∀ files, P (JsonDump upload_list_path files)) →
  emits (if cond
         then remove_uploaded_entry args upload_list_path image_url source_name tv_ip
         else mret tt) P.
Proof. intros HP. unfold remove_uploaded_entry, json_dump. solve_emits. Qed.

(** X3. With [--upload-all] the recorded picture is not selected first.
    When the image cannot be prepared, [process_tv] stops before the
    removal: the record stays, nothing is selected, uploaded or written.
    When the image can be prepared, the records of the key are dropped,
    there is exactly one upload, and the new record is appended when the
    upload and the select of the new picture succeed. *)
Theorem forced_reupload_replaces_record
    tv_ip image_data file_type image_url remote source_name st :
  Args.upload_all args = true →
  (art_supported tv_ip (world st)).1 = true →
  let prepared := ensure_image_data args image_data file_type source_name image_url
                                    (checked tv_ip st) in
  let removed := (remove_uploaded_entry args upload_list_path image_url source_name tv_ip
                                        prepared.2).2 in
  let final := (process_tv args upload_list_path tv_ip image_data file_type image_url
                           (Some remote) source_name st).2 in
  match prepared.1 with
  | (Some d, Some ft) =>
      let up := art_upload tv_ip d ft (world removed) in
      count is_upload (trace final) = count is_upload (trace st) + 1
      ∧ uploaded_files final
        = filter (λ entry, Entry.key entry
                    ≠ (image_url, source_name, device_scope args tv_ip))
                 (uploaded_files st)
          ++ match up.1 with
             | UploadReturned (Some new_remote) =>
                 match (art_select_image tv_ip new_remote up.2).1 with
                 | SelectOk =>
                     [Entry.mk image_url (Some new_remote) (device_scope args tv_ip)
                               source_name]
                 | _ => []
                 end
             | _ => []
             end
  | _ =>
      uploaded_files final = uploaded_files st
      ∧ count is_upload (trace final) = count is_upload (trace st)
      ∧ count is_select (trace final) = count is_select (trace st)
      ∧ count is_write (trace final) = count is_write (trace st)
  end.
Proof.
  intros Hall Hsup prepared removed final.
  assert (Hfinal : final
    = (upload_path args upload_list_path tv_ip image_data file_type image_url
                   (Some remote) source_name true (checked tv_ip st)).2).
  { subst final. rewrite run_process_tv_supported by done. cbn zeta.
    rewrite select_existing_skip by (by right). cbn [fst snd].
    by rewrite Hall, orb_true_r. }
  rewrite run_upload_path in Hfinal. cbn zeta in Hfinal. fold prepared in Hfinal.
  rewrite bool_decide_eq_true_2 in Hfinal by done. fold removed in Hfinal.
  assert (Hprep : ∀ kind, (∀ m u, kind (GetImage m u) = false) →
                          (∀ d, kind (ResizeAndCrop d) = false) →
                          (∀ l m, kind (Log l m) = false) →
                          (∀ f d, kind (DebugImage f d) = false) →
                          kind (ArtSupported tv_ip) = false →
                          count kind (trace prepared.2) = count kind (trace st)).
  { intros kind ? ? ? ? ?. subst prepared.
    rewrite emits_count by (by apply emits_ensure_image_data).
    by apply checked_count. }
  assert (Hpfiles : uploaded_files prepared.2 = uploaded_files st)
    by (subst prepared; by rewrite ensure_image_data_files).
  destruct prepared.1 as [[d|] [ft|]]; cbn zeta.
  2-4: rewrite Hfinal, run_log; cbn [snd uploaded_files trace];
       rewrite !count_app, !count_singleton, !Hprep by done; cbn;
       repeat split; done || lia.
  rewrite Hfinal. split.
  - rewrite upload_and_record_count. f_equal. subst removed.
    unfold remove_uploaded_entry, json_dump.
    rewrite emits_count by solve_emits. by apply Hprep.
  - destruct (run_upload_and_record tv_ip d ft image_url source_name removed) as [Hout _].
    cbn zeta in Hout. rewrite Hout.
    assert (Hrem : uploaded_files removed
              = filter (λ entry, Entry.key entry
                          ≠ (image_url, source_name, device_scope args tv_ip))
                       (uploaded_files st))
      by (subst removed; by rewrite remove_uploaded_entry_files, Hpfiles).
    rewrite Hrem.
    destruct (art_upload tv_ip d ft (world removed)).1 as [[new_remote|]|];
      rewrite ?app_nil_r; try done.
    destruct (art_select_image tv_ip new_remote _).1; by rewrite ?app_nil_r.
Qed.

(** ** Other records *)

Lemma filter_idem {A} (P : A → Prop) `{∀ x, Decision (P x)} (l : list A) :
  filter P (filter P l) = filter P l.
Proof.
  induction l as [|x l IH]; [done|]. rewrite filter_cons. case_decide; [|done].
  by rewrite filter_cons_True, IH.
Qed.

(** X4. [process_tv] leaves every record of another key where it is: the
    records of other images, sources and scopes are the same before and
    after the call, in the same order. *)
Theorem process_tv_keeps_other_keys
    tv_ip image_data file_type image_url remote_filename source_name st :
  let k := (image_url, source_name, device_scope args tv_ip) in
  let final := (process_tv args upload_list_path tv_ip image_data file_type image_url
                           remote_filename source_name st).2 in
  filter (λ entry, Entry.key entry ≠ k) (uploaded_files final)
  = filter (λ entry, Entry.key entry ≠ k) (uploaded_files st).
Proof.
  intros k final. subst final.
  assert (Hnew : ∀ id l,
    filter (λ entry, Entry.key entry ≠ k)
           (l ++ [Entry.mk image_url (Some id) (device_scope args tv_ip) source_name])
    = filter (λ entry, Entry.key entry ≠ k) l).
  { intros id l. rewrite filter_app, filter_cons_False, filter_nil, app_nil_r; [done|].
    intros Hne. by apply Hne. }
  destruct (process_tv_store tv_ip image_data file_type image_url remote_filename
              source_name st) as [Heq|[Heq|(id & d & ft & w & _ & [Heq|[_ Heq]])]];
    cbn zeta in Heq; fold k in Heq; rewrite Heq, ?Hnew, ?filter_idem; done.
Qed.

(** ** How many uploads *)

Lemma upload_path_uploads
    tv_ip image_data file_type image_url remote_filename source_name needs_upload st :
  count is_upload
    (trace (upload_path args upload_list_path tv_ip image_data file_type image_url
                        remote_filename source_name needs_upload st).2)
  ≤ count is_upload (trace st) + 1.
Proof.
  destruct needs_upload; [|unfold upload_path; cbn; lia].
  rewrite run_upload_path. cbn zeta.
  assert (Hprep : count is_upload
            (trace (ensure_image_data args image_data file_type source_name image_url st).2)
          = count is_upload (trace st))
    by (apply emits_count; by apply emits_ensure_image_data).
  destruct (ensure_image_data args image_data file_type source_name image_url st).1
    as [[d|] [ft|]].
  2-4: rewrite run_log; cbn [snd trace]; rewrite count_app, count_singleton, Hprep; cbn; lia.
  rewrite upload_and_record_count, emits_count, Hprep by (by apply emits_remove_if). lia.
Qed.

Lemma process_tv_uploads
    tv_ip image_data file_type image_url remote_filename source_name st :
  count is_upload
    (trace (process_tv args upload_list_path tv_ip image_data file_type image_url
                       remote_filename source_name st).2)
  ≤ count is_upload (trace st) + 1.
Proof.
  destruct (art_supported tv_ip (world st)).1 eqn:Hsup.
  - rewrite run_process_tv_supported by done. cbn zeta.
    set (needs := bool_decide (remote_filename = None) || Args.upload_all args).
    assert (Hsel : count is_upload
              (trace (select_existing args upload_list_path tv_ip image_url remote_filename
                        source_name needs (checked tv_ip st)).2)
            = count is_upload (trace st)).
    { rewrite emits_count by (by apply emits_select_existing). by apply checked_count. }
    destruct (select_existing _ _ _ _ _ _ _ _).1 as [[needs' remote']|]; cbn [snd].
    + etrans; [apply upload_path_uploads|]. lia.
    + lia.
  - rewrite run_process_tv_unsupported by done. cbn [snd trace].
    rewrite count_app, !count_cons, count_nil. cbn. lia.
Qed.

Lemma sync_tv_uploads tv_ip st :
  count is_upload (trace (sync_tv args upload_list_path tv_ip st).2)
  ≤ count is_upload (trace st) + 1.
Proof.
  unfold sync_tv. rewrite run_bind.
  assert (Hget : count is_upload (trace (get_image_for_tv args tv_ip st).2)
                 = count is_upload (trace st)).
  { apply emits_count.
    unfold get_image_for_tv, choose_source, get_remote_filename, prepare, save_debug_image.
    solve_emits. }
  destruct (get_image_for_tv args tv_ip st).1 as [[[[d ft] url] remote] name].
  etrans; [apply process_tv_uploads|]. lia.
Qed.

Lemma for_each_uploads (l : list string) (body : string → M W unit) st :
  (∀ x st', count is_upload (trace (body x st').2) ≤ count is_upload (trace st') + 1) →
  count is_upload (trace (for_each l body st).2) ≤ count is_upload (trace st) + length l.
Proof.
  intros Hbody. revert st. induction l as [|x l IH]; intros st; [cbn; lia|].
  cbn [for_each length]. rewrite run_bind. etrans; [apply IH|].
  pose proof (Hbody x st). lia.
Qed.

Lemma device_loops_uploads st :
  count is_upload (trace (device_loops args upload_list_path st).2)
  ≤ count is_upload (trace st) + length (tvip args).
Proof.
  rewrite run_device_loops. case_bool_decide.
  { rewrite run_log. cbn [snd trace]. rewrite count_app, count_singleton. cbn. lia. }
  destruct (bool_decide (1 < length (tvip args)) && Args.same_image args).
  - rewrite run_same_image_loop. cbn zeta.
    set (chosen := choose_source args st).
    set (resolved := call (GetImageUrl chosen.1) (get_image_url chosen.1) chosen.2).
    assert (Hres : count is_upload (trace resolved.2) = count is_upload (trace st)).
    { destruct (choose_and_resolve_idle st) as [_ (evs & Ht & Hidle)].
      cbn zeta in Ht. fold chosen in Ht. fold resolved in Ht.
      rewrite Ht, count_app, (count_none _ idle evs); [lia|done|].
      by intros e (? & ? & ? & ?). }
    destruct (truthy resolved.1); cbn [negb].
    2:{ rewrite run_log. cbn [snd trace]. rewrite count_app, count_singleton, Hres. cbn. lia. }
    set (upload_targets := filter _ (tvip args)).
    assert (Hfetch : count is_upload
              (trace (fetch_shared args chosen.1 resolved.1 upload_targets resolved.2).2)
            = count is_upload (trace st)).
    { rewrite emits_count; [done|].
      unfold fetch_shared, prepare, save_debug_image. solve_emits. }
    destruct (fetch_shared args chosen.1 resolved.1 upload_targets resolved.2).1
      as [[image_data file_type]|]; cbn [snd]; [|lia].
    etrans; [apply for_each_uploads; intros; apply process_tv_uploads|]. lia.
  - cbn [snd]. apply for_each_uploads. intros. apply sync_tv_uploads.
Qed.

(** X7. One television at a time, the source delivers no image for a
    television without usable record: [get_image_for_tv] hands over the
    tuple of [None]s, so [process_tv] knows no source to ask again.  The
    image was asked for once, the television is not sent anything to
    select or upload, and the store and the upload list are as before. *)
Theorem sync_tv_source_failure tv_ip st :
  let chosen := choose_source args st in
  let resolved := call (GetImageUrl chosen.1) (get_image_url chosen.1) chosen.2 in
  let remote := store_find (uploaded_files st) resolved.1 (Some (__name__ chosen.1))
                           (device_scope args tv_ip) in
  let fetched := call (GetImage chosen.1 resolved.1) (get_image chosen.1 resolved.1)
                      resolved.2 in
  truthy remote = false →
  fetched.1.1 = None →
  let final := (sync_tv args upload_list_path tv_ip st).2 in
  uploaded_files final = uploaded_files st
  ∧ count is_fetch (trace final) = count is_fetch (trace st) + 1
  ∧ count is_select (trace final) = count is_select (trace st)
  ∧ count is_upload (trace final) = count is_upload (trace st)
  ∧ count is_write (trace final) = count is_write (trace st).
Proof.
  intros chosen resolved remote fetched Hremote Hnone final. subst final.
  unfold sync_tv. rewrite run_bind, get_image_for_tv_missing by done. cbn zeta.
  fold chosen resolved fetched. rewrite Hnone. cbn [fst snd].
  assert (Hfiles : uploaded_files fetched.2 = uploaded_files st)
    by (subst fetched resolved chosen; by rewrite run_choose_source).
  assert (Htrace : trace fetched.2
                   = trace st ++ [RandomChoice;
                                  Log INFO ("Selected source: " +:+ __name__ chosen.1);
                                  GetImageUrl chosen.1; GetImage chosen.1 resolved.1]).
  { subst fetched resolved. rewrite !run_call. cbn [fst snd trace].
    subst chosen. rewrite run_choose_source. cbn zeta. cbn [fst snd trace].
    by rewrite <- !(assoc_L (++)). }
  rewrite process_tv_nothing, Hfiles. split; [done|].
  assert (Hcounts : ∀ kind st', (∀ level msg, kind (Log level msg) = false) →
            kind (ArtSupported tv_ip) = false →
            count kind (trace (process_tv args upload_list_path tv_ip None None None None None
                                          st').2)
            = count kind (trace st')).
  { intros kind st' Hlog Hsup.
    destruct (art_supported tv_ip (world st')).1 eqn:Hsupported.
    - rewrite run_process_tv_supported by done. cbn zeta.
      rewrite select_existing_skip by (by left). cbn [fst snd].
      rewrite bool_decide_eq_true_2 by done. cbn [orb].
      rewrite run_upload_path. cbn zeta. unfold ensure_image_data, checked. cbn. run.
      rewrite !count_app, !count_cons, !count_nil, !Hlog, Hsup. cbn. lia.
    - rewrite run_process_tv_unsupported by done. cbn [snd trace].
      rewrite !count_app, !count_cons, !count_nil, !Hlog, Hsup. cbn. lia. }
  rewrite !Hcounts by done. rewrite Htrace, !count_app, !count_cons, !count_nil. cbn.
  repeat split; lia.
Qed.

(** ** The events of a run *)

Lemma appended_refl (P : Event → Prop) st : appended P st st.
Proof. exists []. by rewrite app_nil_r. Qed.

Lemma appended_trans (P : Event → Prop) st1 st2 st3 :
  appended P st1 st2 → appended P st2 st3 → appended P st1 st3.
Proof.
  intros (evs1 & Ht1 & F1) (evs2 & Ht2 & F2).
  exists (evs1 ++ evs2). rewrite Ht2, Ht1, (assoc_L (++)). split; [done|].
  by apply Forall_app.
Qed.

Lemma appended_emits {A} (m : M W A) (P : Event → Prop) st :
  emits m P → appended P st (m st).2.
Proof. intros Hm. apply Hm. Qed.

Lemma source_lookup_name m : source_lookup !! __name__ m = Some m.
Proof. by destruct m. Qed.

(** What a run may append: log lines, a draw, questions to the enabled
    sources, resizes, debug images with [--debugimage] only, writes of the
    one upload list, and calls to the configured televisions. *)
Section run_events.
Context (P : Event → Prop).
Context (Hlog : ∀ level msg, P (Log level msg)).
Context (Hrandom : P RandomChoice).
Context (Hsource : ∀ m, m ∈ sources args → P (GetImageUrl m) ∧ ∀ u, P (GetImage m u)).
Context (Hresize : ∀ d, P (ResizeAndCrop d)).
Context (Hdebug : Args.debugimage args = true → ∀ f d, P (DebugImage f d)).
Context (Hdump : ∀ files, P (JsonDump upload_list_path files)).
Context (Htv : ∀ tv_ip, tv_ip ∈ tvip args →
                 P (ArtSupported tv_ip)
                 ∧ (∀ r, P (ArtSelectImage tv_ip r))
                 ∧ ∀ d ft, P (ArtUpload tv_ip d ft)).

Lemma emits_save_debug_image image_data filename :
  emits (W := W) (save_debug_image args image_data filename) P.
Proof using All.
  unfold save_debug_image. destruct (Args.debugimage args) eqn:Hd; [|apply emits_ret].
  apply emits_bind; [apply emits_emit; by apply Hdebug|]. intros _. by apply emits_log.
Qed.

Lemma emits_prepare source_name original_image_data :
  emits (W := W) (prepare args source_name original_image_data) P.
Proof using All.
  unfold prepare.
  repeat first [apply emits_save_debug_image | emits_step]; done.
Qed.

Lemma emits_ensure_image_data_enabled image_data file_type source_name image_url :
  (∀ m, source_name ≫= (source_lookup !!.) = Some m → m ∈ sources args) →
  emits (ensure_image_data args image_data file_type source_name image_url) P.
Proof using All.
  intros Hname. unfold ensure_image_data.
  destruct (source_name ≫= (source_lookup !!.)) as [m|] eqn:Hm.
  - assert (Hin : m ∈ sources args) by by apply Hname.
    destruct (Hsource m Hin) as [_ Hget].
    destruct image_data, file_type; try apply emits_ret;
      (apply emits_bind; [by apply emits_call|]); intros [[d|] ft];
      repeat first [apply emits_prepare | emits_step]; done.
  - destruct image_data, file_type; solve_emits.
Qed.

Lemma emits_process_tv_enabled
    tv_ip image_data file_type image_url remote_filename source_name :
  tv_ip ∈ tvip args →
  (∀ m, source_name ≫= (source_lookup !!.) = Some m → m ∈ sources args) →
  emits (process_tv args upload_list_path tv_ip image_data file_type image_url
                    remote_filename source_name) P.
Proof using All.
  intros Hin Hname. destruct (Htv tv_ip Hin) as (Hsup & Hsel & Hup).
  unfold process_tv, select_existing, upload_path, upload_and_record, remove_uploaded_entry,
    json_dump.
  repeat first [apply emits_ensure_image_data_enabled | emits_step]; eauto.
Qed.

Lemma name_enabled (m : SourceModule) :
  m ∈ sources args →
  ∀ m', Some (__name__ m) ≫= (source_lookup !!.) = Some m' → m' ∈ sources args.
Proof using All. intros Hin m'. cbn. rewrite source_lookup_name. by intros [= <-]. Qed.

Lemma appended_sync_tv tv_ip st :
  sources args ≠ [] → tv_ip ∈ tvip args →
  appended P st (sync_tv args upload_list_path tv_ip st).2.
Proof using All.
  intros Hne Hin. unfold sync_tv. rewrite run_bind.
  set (chosen := choose_source args st).
  set (resolved := call (GetImageUrl chosen.1) (get_image_url chosen.1) chosen.2).
  set (remote := store_find (uploaded_files st) resolved.1 (Some (__name__ chosen.1))
                            (device_scope args tv_ip)).
  assert (Hchosen : chosen.1 ∈ sources args) by by apply choose_source_elem_of.
  destruct (Hsource _ Hchosen) as [Hurl Hget].
  assert (Hres : appended P st resolved.2).
  { eapply appended_trans.
    - apply (appended_emits (choose_source args)). unfold choose_source. solve_emits.
    - apply (appended_emits (call (GetImageUrl chosen.1) (get_image_url chosen.1))).
      by apply emits_call. }
  destruct (truthy remote) eqn:Hremote.
  - rewrite get_image_for_tv_found by done. cbn [fst snd]. fold chosen resolved remote.
    eapply appended_trans; [exact Hres|].
    apply appended_emits, emits_process_tv_enabled; [done|by apply name_enabled].
  - rewrite get_image_for_tv_missing by done. cbn zeta. fold chosen resolved.
    set (fetched := call (GetImage chosen.1 resolved.1) (get_image chosen.1 resolved.1)
                         resolved.2).
    assert (Hfetched : appended P st fetched.2).
    { eapply appended_trans; [exact Hres|].
      apply (appended_emits (call (GetImage chosen.1 resolved.1)
                                  (get_image chosen.1 resolved.1))).
      by apply emits_call. }
    destruct fetched.1.1 as [d|]; cbn [fst snd].
    + eapply appended_trans; [exact Hfetched|]. eapply appended_trans.
      * apply (appended_emits (prepare args (__name__ chosen.1) d)), emits_prepare.
      * apply appended_emits, emits_process_tv_enabled; [done|by apply name_enabled].
    + eapply appended_trans; [exact Hfetched|].
      apply appended_emits, emits_process_tv_enabled; [done|]. by intros m [=].
Qed.

Lemma appended_for_each (l : list string) (body : string → M W unit) st :
  (∀ x st', x ∈ l → appended P st' (body x st').2) →
  appended P st (for_each l body st).2.
Proof using All.
  revert st. induction l as [|x l IH]; intros st Hbody; [apply appended_refl|].
  cbn [for_each]. rewrite run_bind. eapply appended_trans.
  - apply Hbody. by left.
  - apply IH. intros y st' Hy. apply Hbody. by right.
Qed.

Lemma appended_device_loops st :
  sources args ≠ [] → appended P st (device_loops args upload_list_path st).2.
Proof using All.
  intros Hne. rewrite run_device_loops. case_bool_decide.
  { cbn [snd]. apply (appended_emits (log ERROR _)). by apply emits_log. }
  destruct (bool_decide (1 < length (tvip args)) && Args.same_image args).
  - rewrite run_same_image_loop. cbn zeta.
    set (chosen := choose_source args st).
    set (resolved := call (GetImageUrl chosen.1) (get_image_url chosen.1) chosen.2).
    assert (Hchosen : chosen.1 ∈ sources args) by by apply choose_source_elem_of.
    destruct (Hsource _ Hchosen) as [Hurl Hget].
    assert (Hres : appended P st resolved.2).
    { eapply appended_trans.
      - apply (appended_emits (choose_source args)). unfold choose_source. solve_emits.
      - apply (appended_emits (call (GetImageUrl chosen.1) (get_image_url chosen.1))).
        by apply emits_call. }
    destruct (truthy resolved.1); cbn [negb].
    2:{ cbn [snd]. eapply appended_trans; [exact Hres|].
        apply (appended_emits (log _ _)). by apply emits_log. }
    set (upload_targets := filter _ (tvip args)).
    assert (Hfetch : appended P st
              (fetch_shared args chosen.1 resolved.1 upload_targets resolved.2).2).
    { eapply appended_trans; [exact Hres|]. apply appended_emits.
      unfold fetch_shared. repeat first [apply emits_prepare | emits_step]; done. }
    destruct (fetch_shared args chosen.1 resolved.1 upload_targets resolved.2).1
      as [[image_data file_type]|]; cbn [snd]; [|done].
    eapply appended_trans; [exact Hfetch|].
    apply appended_for_each. intros tv_ip st' Hin.
    apply appended_emits, emits_process_tv_enabled; [done|by apply name_enabled].
  - cbn [snd]. apply appended_for_each. intros tv_ip st' Hin. by apply appended_sync_tv.
Qed.

End run_events.

End process.



(** C1 (as amended). A call of [process_tv] appends a record only behind
    the store with the records of its key dropped, or, when it was called
    without a remote file name, behind the unchanged store.  A run keeps
    the keys of the store unique: when the upload list it loads has unique
    keys and no empty artifact id, the televisions acknowledge uploads with
    ids that are not empty, and, with [--same-image], no address is
    configured twice, then the store at the end of the run has unique keys
    and no empty artifact id. *)
Theorem store_keys_stay_unique args :
  (∀ upload_list_path tv_ip image_data file_type image_url remote_filename source_name st,
     let final := uploaded_files
                    (process_tv args upload_list_path tv_ip image_data file_type image_url
                                remote_filename source_name st).2 in
     let others := filter (λ entry, Entry.key entry
                             ≠ (image_url, source_name, device_scope args tv_ip))
                          (uploaded_files st) in
     final = uploaded_files st
     ∨ final = others
     ∨ ∃ id,
         final = others ++ [Entry.mk image_url (Some id) (device_scope args tv_ip) source_name]
         ∨ remote_filename = None
           ∧ final = uploaded_files st
                     ++ [Entry.mk image_url (Some id) (device_scope args tv_ip) source_name])
  ∧ ∀ st,
      (∀ tv_ip d ft w id, (art_upload tv_ip d ft w).1 = UploadReturned (Some id) → id ≠ "") →
      (Args.same_image args = true → NoDup (tvip args)) →
      let loaded := uploaded_files (startup st).2 in
      unique_keys loaded → usable_ids loaded →
      let final := uploaded_files (main args st).2 in
      unique_keys final ∧ usable_ids final.
Proof.
  split.
  - intros upload_list_path tv_ip image_data file_type image_url remote_filename
      source_name st final others.
    destruct (process_tv_store args upload_list_path tv_ip image_data file_type image_url
                remote_filename source_name st)
      as [Heq|[Heq|(id & d & ft & w & _ & Heq)]]; eauto.
  - intros st Hup Hnd loaded Huniq Hids final. subst final. unfold main. rewrite run_bind.
    destruct (sources args); [by run|].
    by apply device_loops_invariant.
Qed.

(** X5. One call of [process_tv] uploads at most once, and a run uploads
    at most once for every configured address, whatever the televisions and
    the sources answer. *)
Theorem one_upload_per_television args :
  (∀ upload_list_path tv_ip image_data file_type image_url remote_filename source_name st,
     count is_upload
       (trace (process_tv args upload_list_path tv_ip image_data file_type image_url
                          remote_filename source_name st).2)
     ≤ count is_upload (trace st) + 1)
  ∧ ∀ st, count is_upload (trace (main args st).2)
          ≤ count is_upload (trace st) + length (tvip args).
Proof.
  split; [intros; apply process_tv_uploads|].
  intros st. unfold main. rewrite run_bind.
  assert (Hstart : count is_upload (trace (startup st).2) = count is_upload (trace st)).
  { apply emits_count. unfold startup, ensure_upload_dir. cbn [try_dirs]. solve_emits. }
  destruct (sources args).
  - run. rewrite count_app, count_singleton, Hstart. cbn. lia.
  - etrans; [apply device_loops_uploads|]. lia.
Qed.

(** ** The addresses of [--tvip] *)

Lemma split_cons sep s : ∃ x xs, split sep s = x :: xs.
Proof.
  destruct s as [|c s]; cbn [split]; [by eexists _, _|].
  destruct (decide (c = sep)); [by eexists _, _|].
  destruct (split sep s); by eexists _, _.
Qed.

Lemma join_cons_char sep c x xs : join sep (String c x :: xs) = String c (join sep (x :: xs)).
Proof. by destruct xs. Qed.

Lemma join_split sep s : join sep (split sep s) = s.
Proof.
  induction s as [|c s IH]; [done|]. cbn [split].
  destruct (split_cons sep s) as (x & xs & Hs). rewrite Hs in *.
  destruct (decide (c = sep)) as [->|_].
  - change (join sep ("" :: x :: xs)) with (String sep (join sep (x :: xs))).
    by rewrite IH.
  - by rewrite join_cons_char, IH.
Qed.

Lemma split_length sep s : length (split sep s) = 1 + occurrences sep s.
Proof.
  induction s as [|c s IH]; [done|]. cbn [split occurrences].
  destruct (split_cons sep s) as (x & xs & Hs). rewrite Hs in *.
  destruct (decide (c = sep)); cbn [length] in *; lia.
Qed.

Lemma split_pieces sep s x : x ∈ split sep s → occurrences sep x = 0.
Proof.
  revert x. induction s as [|c s IH]; intros x.
  { cbn [split]. by intros ->%list_elem_of_singleton. }
  cbn [split]. destruct (split_cons sep s) as (y & ys & Hs). rewrite Hs in *.
  destruct (decide (c = sep)) as [->|Hc].
  - intros [->|Hx]%elem_of_cons; [done|]. by apply IH.
  - intros [->|Hx]%elem_of_cons.
    + cbn [occurrences]. rewrite decide_False by done. apply IH. by left.
    + apply IH. by right.
Qed.

(** X8. The addresses are the pieces of [--tvip] between its commas:
    joined with commas they give the option back, and no address holds a
    comma.  There is no address exactly when the option is missing or
    empty, and the records are scoped by television exactly when the
    option holds a comma. *)
Theorem tvip_pieces args :
  join "," (tvip args) = default "" (Args.tvip args)
  ∧ (∀ tv_ip, tv_ip ∈ tvip args → occurrences "," tv_ip = 0)
  ∧ (tvip args = [] ↔ Args.tvip args = None ∨ Args.tvip args = Some "")
  ∧ ∀ tv_ip, device_scope args tv_ip
             = if bool_decide (0 < occurrences "," (default "" (Args.tvip args)))
               then Some tv_ip else None.
Proof.
  unfold device_scope, tvip. destruct (Args.tvip args) as [s|]; cbn [default].
  2:{ split_and!; [done|by intros ? ?%elem_of_nil|naive_solver|done]. }
  case_bool_decide as Hs.
  - split_and!.
    + apply join_split.
    + intros tv_ip. apply split_pieces.
    + destruct (split_cons "," s) as (x & xs & Hsplit). rewrite Hsplit.
      split; [done|]. by intros [|[= ->]].
    + intros tv_ip. rewrite split_length.
      by rewrite (bool_decide_ext (1 < 1 + occurrences "," s) (0 < occurrences "," s)) by lia.
  - assert (s = "") as -> by (by destruct (decide (s = ""))).
    split_and!; [done|by intros ? ?%elem_of_nil|naive_solver|done].
Qed.

(** X6. A run stays within its configuration.  The upload list lies in
    the preferred directory, the fallback directory or the working
    directory.  Everything a run does beyond logging, drawing and resizing
    is: creating the two data directories, reading and writing that one
    upload list, asking sources that are enabled on the command line,
    saving debug images when [--debugimage] is given, and calling
    televisions whose address is in [--tvip]. *)
Theorem run_stays_within_configuration args st :
  let upload_list_path := (startup st).1 in
  (upload_list_path = path_join PREFERRED_DIR "uploaded_files.json"
   ∨ upload_list_path = path_join FALLBACK_DIR "uploaded_files.json"
   ∨ upload_list_path = path_join "." "uploaded_files.json")
  ∧ appended (permitted args upload_list_path) st (main args st).2.
Proof.
  intros upload_list_path. split.
  { subst upload_list_path. unfold startup, ensure_upload_dir.
    rewrite run_bind, !run_try_dirs_cons. cbn [try_dirs].
    destruct (makedirs PREFERRED_DIR (world st)).1; [by left|].
    cbn [world]. destruct (makedirs FALLBACK_DIR _).1; [right; by left|].
    right; by right. }
  assert (Hstart : appended (permitted args upload_list_path) st (startup st).2).
  { unfold startup. rewrite run_bind. eapply appended_trans.
    - apply (appended_emits ensure_upload_dir). unfold ensure_upload_dir. cbn [try_dirs].
      solve_emits; cbn; auto.
    - rewrite run_bind.
      set (path := path_join (ensure_upload_dir st).1 "uploaded_files.json").
      eapply appended_trans.
      + apply (appended_emits (call (LoadJson path) (load_json path)) (permitted args path)).
        by apply emits_call.
      + apply (appended_emits (set_uploaded_files _ ≫= _)). solve_emits. }
  unfold main. rewrite run_bind. fold upload_list_path.
  destruct (sources args) as [|m l] eqn:Hsources.
  - cbn [snd]. eapply appended_trans; [exact Hstart|].
    apply (appended_emits (log ERROR _)). by apply emits_log.
  - eapply appended_trans; [exact Hstart|].
    apply appended_device_loops; cbn; try done; rewrite ?Hsources; auto.
Qed.

End properties.

(** * The properties on examples *)

(** A television without art mode, a store that holds a record for it. *)
Lemma process_tv_unsupported_witness :
  (art_supported Sim.living_room
     (world (Sim.start (Sim.set_art_mode [Sim.bedroom] (Sim.home []))
                       [Sim.record None "MY_F0001"]))).1 = false
  ∧ uploaded_files
      (process_tv (Sim.bing Sim.living_room false) Sim.state_file Sim.living_room
         None None (Some Sim.sunrise) (Some "MY_F0001") (Some (__name__ bing_wallpapers))
         (Sim.start (Sim.set_art_mode [Sim.bedroom] (Sim.home []))
                    [Sim.record None "MY_F0001"])).2
    = [Sim.record None "MY_F0001"].
Proof.
  split; [reflexivity|].
  refine (proj1 (process_tv_unsupported (W := Sim.t) _ _ _ _ _ _ _ _ _ _)). reflexivity.
Defined.

(** Only the fallback directory can be created. *)
Lemma ensure_upload_dir_first_creatable_witness :
  (ensure_upload_dir (Sim.start (Sim.set_dirs [FALLBACK_DIR] (Sim.home [])) [])).1
  = FALLBACK_DIR.
Proof.
  apply (ensure_upload_dir_first_creatable
           (Sim.start (Sim.set_dirs [FALLBACK_DIR] (Sim.home [])) []));
    reflexivity.
Defined.

(** The recorded picture is gone from the television and Bing is down. *)
Lemma stale_record_lost_when_prepare_fails_witness :
  uploaded_files
    (process_tv (Sim.bing Sim.living_room false) Sim.state_file Sim.living_room
       None None (Some Sim.sunrise) (Some "MY_F0001") (Some (__name__ bing_wallpapers))
       (Sim.start (Sim.set_images (None, None) (Sim.set_stale ["MY_F0001"] (Sim.home [])))
                  [Sim.record None "MY_F0001"])).2
  = [].
Proof.
  refine (proj1 (stale_record_lost_when_prepare_fails
                   (Sim.bing Sim.living_room false) Sim.state_file Sim.living_room
                   None None (Some Sim.sunrise) "MY_F0001" (Some (__name__ bing_wallpapers))
                   (Sim.start (Sim.set_images (None, None)
                                 (Sim.set_stale ["MY_F0001"] (Sim.home [])))
                              [Sim.record None "MY_F0001"])
                   _ _ _ _)).
  - reflexivity.
  - reflexivity.
  - vm_compute. discriminate.
  - left. reflexivity.
Defined.


(** A television on which every select raises: the record is dropped, the
    image is uploaded once, and the select of the new copy fails as well,
    so the key is left without a record. *)
Example unreachable_tv_loses_its_record :
  let run := main (Sim.bing Sim.living_room false)
               (Sim.start (Sim.set_disk [Sim.record None "MY_F0001"]
                             (Sim.set_unreachable [Sim.living_room]
                                (Sim.home [UploadReturned (Some "MY_F0002")])))
                          []) in
  run.1 = Completed
  ∧ count is_upload (trace run.2) = 1
  ∧ uploaded_files run.2 = [].
Proof. cbv zeta. repeat split; reflexivity. Qed.


(** C6, as stated, fails for the empty artifact id: the script rejects
    [None] only.  The television acknowledges an upload with the empty
    string and accepts its select; the record is written. *)
Lemma empty_artifact_id_is_recorded :
  let run := main (Sim.bing Sim.living_room false)
               (Sim.start (Sim.home [UploadReturned (Some "")]) []) in
  run.1 = Completed
  ∧ uploaded_files run.2
    = [Entry.mk (Some Sim.sunrise) (Some "") None (Some (__name__ bing_wallpapers))].
Proof. vm_compute. done. Qed.

(** A second run in a world without failures: the record of the first run
    is there, nothing is uploaded. *)
Lemma recorded_image_is_reselected_witness :
  count is_upload
    (trace (device_loops (Sim.bing Sim.living_room false) Sim.state_file
              (Steady.start [Sim.record None "MY_F"])).2)
  = 0
  ∧ uploaded_files
      (device_loops (Sim.bing Sim.living_room false) Sim.state_file
         (Steady.start [Sim.record None "MY_F"])).2
    = [Sim.record None "MY_F"].
Proof.
  destruct (proj2 (recorded_image_is_reselected (W := Steady.t)
                     (Sim.bing Sim.living_room false) Sim.state_file eq_refl)
              (Steady.start [Sim.record None "MY_F"])) as (Hfiles & _ & _ & Huploads).
  - done.
  - reflexivity.
  - intros s w tv_ip Hs Htv.
    change (s ∈ [bing_wallpapers]) in Hs. change (tv_ip ∈ [Sim.living_room]) in Htv.
    apply list_elem_of_singleton in Hs as ->. apply list_elem_of_singleton in Htv as ->.
    reflexivity.
  - split; [exact Huploads|exact Hfiles].
Defined.

(** Two televisions without record, one image for both. *)
Lemma shared_image_single_fetch_witness :
  count is_fetch
    (trace (same_image_loop (Sim.bing "192.168.1.20,192.168.1.21" true) Sim.state_file
              (Sim.start (Sim.home [UploadReturned (Some "MY_F0001");
                                    UploadReturned (Some "MY_F0002")]) [])).2)
  = 1.
Proof.
  refine (proj1 (proj2 (proj2 (proj2
            (shared_image_single_fetch (Sim.bing "192.168.1.20,192.168.1.21" true)
               Sim.state_file
               (Sim.start (Sim.home [UploadReturned (Some "MY_F0001");
                                     UploadReturned (Some "MY_F0002")]) [])
               _)) _ Sim.jpeg "jpg" _))).
  - reflexivity.
  - vm_compute. discriminate.
  - reflexivity.
Defined.

(** A first run in a world without failures, two televisions, one image. *)
Lemma store_keys_stay_unique_witness :
  unique_keys
    (uploaded_files (main (Sim.bing "192.168.1.20,192.168.1.21" true) (Steady.start [])).2)
  ∧ usable_ids
      (uploaded_files (main (Sim.bing "192.168.1.20,192.168.1.21" true) (Steady.start [])).2).
Proof.
  apply (proj2 (store_keys_stay_unique (W := Steady.t)
                  (Sim.bing "192.168.1.20,192.168.1.21" true)) (Steady.start [])).
  - intros tv_ip d ft w id Hid. cbn in Hid. inversion Hid. discriminate.
  - intros _. change (NoDup ["192.168.1.20"; "192.168.1.21"]).
    apply NoDup_cons. split; [|apply NoDup_singleton].
    rewrite list_elem_of_singleton. discriminate.
  - apply NoDup_nil_2.
  - constructor.
Defined.

(** C1, as stated, fails: with [--same-image] the lookups are made before
    the loop, so an address that is configured twice is uploaded to twice
    and gets two records with one key. *)
Lemma repeated_address_duplicates_key :
  let run := main (Sim.bing "192.168.1.20,192.168.1.20" true)
               (Sim.start (Sim.home [UploadReturned (Some "MY_F0001");
                                     UploadReturned (Some "MY_F0002")]) []) in
  run.1 = Completed
  ∧ uploaded_files run.2
    = [Sim.record (Some Sim.living_room) "MY_F0001";
       Sim.record (Some Sim.living_room) "MY_F0002"]
  ∧ ¬ unique_keys (uploaded_files run.2).
Proof.
  cbv zeta. split; [reflexivity|]. split; [reflexivity|].
  intros Hnd.
  change (NoDup [Entry.key (Sim.record (Some Sim.living_room) "MY_F0001");
                 Entry.key (Sim.record (Some Sim.living_room) "MY_F0002")]) in Hnd.
  apply NoDup_cons in Hnd as [Hnotin _]. apply Hnotin. left.
Qed.

(** C4, as stated, fails: both televisions have a record that they no
    longer know.  Nothing is prepared before the loop, and each call of
    [process_tv] fetches and resizes the image again. *)
Lemma two_stale_records_two_fetches :
  let run := main (Sim.bing "192.168.1.20,192.168.1.21" true)
               (Sim.start (Sim.set_disk [Sim.record (Some Sim.living_room) "MY_F0001";
                                         Sim.record (Some Sim.bedroom) "MY_F0002"]
                             (Sim.set_stale ["MY_F0001"; "MY_F0002"]
                                (Sim.home [UploadReturned (Some "MY_F0003");
                                           UploadReturned (Some "MY_F0004")])))
                          []) in
  run.1 = Completed
  ∧ count is_fetch (trace run.2) = 2
  ∧ count is_prepare (trace run.2) = 2.
Proof. cbv zeta. split; [reflexivity|]. split; reflexivity. Qed.


(** [--upload-all] with a record on file: the picture is uploaded again,
    acknowledged as [MY_F0002], and the record is replaced. *)
Lemma forced_reupload_replaces_record_witness :
  count is_upload
    (trace (process_tv (with_upload_all (Sim.bing Sim.living_room false)) Sim.state_file
              Sim.living_room None None (Some Sim.sunrise) (Some "MY_F0001")
              (Some (__name__ bing_wallpapers))
              (Sim.start (Sim.home [UploadReturned (Some "MY_F0002")])
                         [Sim.record None "MY_F0001"])).2)
  = 1
  ∧ uploaded_files
      (process_tv (with_upload_all (Sim.bing Sim.living_room false)) Sim.state_file
         Sim.living_room None None (Some Sim.sunrise) (Some "MY_F0001")
         (Some (__name__ bing_wallpapers))
         (Sim.start (Sim.home [UploadReturned (Some "MY_F0002")])
                    [Sim.record None "MY_F0001"])).2
    = [Sim.record None "MY_F0002"].
Proof.
  refine (forced_reupload_replaces_record
            (with_upload_all (Sim.bing Sim.living_room false)) Sim.state_file
            Sim.living_room None None (Some Sim.sunrise) "MY_F0001"
            (Some (__name__ bing_wallpapers))
            (Sim.start (Sim.home [UploadReturned (Some "MY_F0002")])
                       [Sim.record None "MY_F0001"]) _ _).
  - reflexivity.
  - reflexivity.
Defined.

(** Bing delivers no image for a television without record: one fetch,
    no upload, the store stays empty. *)
Lemma sync_tv_source_failure_witness :
  uploaded_files
    (sync_tv (Sim.bing Sim.living_room false) Sim.state_file Sim.living_room
       (Sim.start (Sim.set_images (None, None) (Sim.home [])) [])).2
  = []
  ∧ count is_fetch
      (trace (sync_tv (Sim.bing Sim.living_room false) Sim.state_file Sim.living_room
                (Sim.start (Sim.set_images (None, None) (Sim.home [])) [])).2)
    = 1
  ∧ count is_upload
      (trace (sync_tv (Sim.bing Sim.living_room false) Sim.state_file Sim.living_room
                (Sim.start (Sim.set_images (None, None) (Sim.home [])) [])).2)
    = 0.
Proof.
  destruct (sync_tv_source_failure (Sim.bing Sim.living_room false) Sim.state_file
              Sim.living_room
              (Sim.start (Sim.set_images (None, None) (Sim.home [])) []))
    as (Hfiles & Hfetch & _ & Hupload & _).
  - reflexivity.
  - reflexivity.
  - split; [exact Hfiles|]. split; [exact Hfetch|exact Hupload].
Defined.
